(** * ebay_cralwer.py: a shallow embedding of the [EbayCrawler] class

    The crawler fetches the result pages of one eBay store, turns every
    listing node into a small dictionary, optionally filters on the
    condition label, and writes one JSON file per item into the store's
    directory.  This file embeds [extract_item_id], [parse_item],
    [write_json_file], [process_page] and [crawl] and proves properties of
    them.

    Conventions of the embedding:
    - a Python [str] is a Rocq [string]; its characters are read as the code
      points 0..255 (Latin-1).  On that range [\d] of the [re] module is
      exactly [0-9], and [str.strip], [str.lower] are the functions below;
    - a BeautifulSoup node is the tuple of the results of the [find] calls
      the code performs on it; a tag carries its text and its attributes;
    - the [logger] calls, the files of [self.data_dir] and the URLs handed to
      [requests.get] are the state threaded through the methods; an
      exception aborts the method that raises it and every caller that does
      not catch it;
    - opening, writing and listing files succeed;
    - the coroutines collected by [process_page] run one after the other, in
      the order in which [asyncio.gather] received them; when the identifiers
      of a page are distinct, the directory they leave is the same in any
      other order ([store_Permutation]). *)

From Stdlib Require Import ZArith NArith Ascii String List Lia Bool.
From stdpp Require Import base gmap strings list sets fin_sets.

Local Open Scope Z_scope.

#[local] Arguments String.append !s1 s2 : simpl nomatch.
#[local] Set Warnings "-clear-no-such-hyp".

(** ** Python strings *)

Module Py.

Definition code (c : ascii) : N := N_of_ascii c.

Definition between (lo hi : N) (c : ascii) : bool :=
  (N.leb lo (code c) && N.leb (code c) hi)%bool.

(** [str.isspace] on one character: TAB..CR, FS..US, SPACE, NEL, NBSP. *)
Definition isspace (c : ascii) : bool :=
  (between 9 13 c || between 28 32 c
   || N.eqb (code c) 133 || N.eqb (code c) 160)%bool.

(** [\d] of the [re] module: the decimal digits. *)
Definition isdecimal (c : ascii) : bool := between 48 57 c.

(** [str.lower] on one character: A..Z and the accented capitals
    U+00C0..U+00DE except the multiplication sign U+00D7. *)
Definition lower_char (c : ascii) : ascii :=
  if (between 65 90 c
      || (between 192 222 c && negb (N.eqb (code c) 215)))%bool
  then ascii_of_N (code c + 32)
  else c.

Fixpoint lower (s : string) : string :=
  match s with
  | EmptyString => EmptyString
  | String c s' => String (lower_char c) (lower s')
  end.

Fixpoint lstrip (s : string) : string :=
  match s with
  | EmptyString => EmptyString
  | String c s' => if isspace c then lstrip s' else s
  end.

Fixpoint rstrip (s : string) : string :=
  match s with
  | EmptyString => EmptyString
  | String c s' =>
      match rstrip s' with
      | EmptyString => if isspace c then EmptyString else String c EmptyString
      | r => String c r
      end
  end.

(** [s.strip()] *)
Definition strip (s : string) : string := rstrip (lstrip s).

(** [s.startswith(p)], with the remainder of [s] when it does. *)
Fixpoint strip_prefix (p s : string) : option string :=
  match p, s with
  | EmptyString, _ => Some s
  | String a p', String b s' =>
      if Ascii.eqb a b then strip_prefix p' s' else None
  | String _ _, EmptyString => None
  end.

Definition startswith (p s : string) : bool :=
  match strip_prefix p s with Some _ => true | None => false end.

(** [s.endswith(suf)] *)
Fixpoint endswith (suf s : string) : bool :=
  if String.eqb s suf then true
  else match s with
       | EmptyString => false
       | String _ s' => endswith suf s'
       end.

(** [s.split(sep)[0]] for a non-empty [sep]: the text before the leftmost
    occurrence of [sep], all of [s] when there is none. *)
Fixpoint split_first (sep s : string) : string :=
  if startswith sep s then EmptyString
  else match s with
       | EmptyString => EmptyString
       | String c s' => String c (split_first sep s')
       end.

(** Truth value of a [str]: only the empty string is false. *)
Definition truthy (s : string) : bool := negb (String.eqb s EmptyString).

(** Truth value of a [str] or [None]. *)
Definition truthy_opt (o : option string) : bool :=
  match o with Some s => truthy s | None => false end.

Fixpoint keep (f : ascii -> bool) (s : string) : string :=
  match s with
  | EmptyString => EmptyString
  | String c s' => if f c then String c (keep f s') else keep f s'
  end.

Fixpoint all (f : ascii -> bool) (s : string) : bool :=
  match s with
  | EmptyString => true
  | String c s' => (f c && all f s')%bool
  end.

Fixpoint count (f : ascii -> bool) (s : string) : nat :=
  match s with
  | EmptyString => O
  | String c s' => if f c then S (count f s') else count f s'
  end.

End Py.

(** ** The two regular expressions of the crawler *)

Module Re.

(** The longest run of [\d] at the head of [s]: what a greedy [\d+]
    consumes there. *)
Fixpoint digits_prefix (s : string) : string :=
  match s with
  | String c s' => if Py.isdecimal c then String c (digits_prefix s') else EmptyString
  | EmptyString => EmptyString
  end.

(** [re.match(r'/itm/(\d+)', s)]: group 1 of a match anchored at the head
    of [s]. *)
Definition match_itm (s : string) : option string :=
  match Py.strip_prefix "/itm/" s with
  | Some rest =>
      match digits_prefix rest with
      | EmptyString => None
      | ds => Some ds
      end
  | None => None
  end.

(** [re.search(r'/itm/(\d+)', s)]: group 1 of the leftmost match. *)
Fixpoint search_itm (s : string) : option string :=
  match match_itm s with
  | Some ds => Some ds
  | None =>
      match s with
      | EmptyString => None
      | String _ s' => search_itm s'
      end
  end.

(** The class [[\d.]]: a decimal digit or the full stop. *)
Definition digit_or_dot (c : ascii) : bool :=
  (Py.isdecimal c || Ascii.eqb c ".")%bool.

(** [re.sub(r'[^\d.]', '', s)]: every character outside the class is
    deleted. *)
Definition sub_non_price (s : string) : string := Py.keep digit_or_dot s.

End Re.

(** ** [json.dumps(data, indent=4)] on the dictionary of an item *)

Module Json.

Definition quote : ascii := ascii_of_N 34.
Definition backslash : ascii := ascii_of_N 92.
Definition newline : ascii := ascii_of_N 10.

Definition chr (c : ascii) : string := String c EmptyString.

Definition hex_digit (n : N) : ascii :=
  if N.ltb n 10 then ascii_of_N (48 + n) else ascii_of_N (87 + n).

(** One character of a string literal, with [ensure_ascii] left at its
    default: the printable ASCII characters stand for themselves, the
    quote, the backslash and five control characters have a short escape,
    everything else is written [\u00xx]. *)
Definition escape_char (c : ascii) : string :=
  let n := Py.code c in
  if N.eqb n 34 then String backslash (chr quote)
  else if N.eqb n 92 then String backslash (chr backslash)
  else if N.eqb n 10 then String backslash "n"
  else if N.eqb n 13 then String backslash "r"
  else if N.eqb n 9 then String backslash "t"
  else if N.eqb n 8 then String backslash "b"
  else if N.eqb n 12 then String backslash "f"
  else if Py.between 32 126 c then chr c
  else String backslash
         ("u00" +:+ String (hex_digit (N.div n 16)) (chr (hex_digit (N.modulo n 16)))).

Fixpoint escape (s : string) : string :=
  match s with
  | EmptyString => EmptyString
  | String c s' => escape_char c +:+ escape s'
  end.

Definition str (s : string) : string :=
  String quote (escape s +:+ chr quote).

Definition member (key value : string) : string :=
  "    " +:+ str key +:+ ": " +:+ str value.

(** A dictionary with string values, its keys in insertion order. *)
Fixpoint members (kvs : list (string * string)) : string :=
  match kvs with
  | [] => EmptyString
  | [(k, v)] => member k v
  | (k, v) :: rest => member k v +:+ "," +:+ chr newline +:+ members rest
  end.

Definition dumps (kvs : list (string * string)) : string :=
  match kvs with
  | [] => "{}"
  | _ => "{" +:+ chr newline +:+ members kvs +:+ chr newline +:+ "}"
  end.

End Json.

(** ** Markup, records, diagnostics and the state of a crawl *)

(** A tag of the parsed document: its [.text] and its attributes. *)
Record Tag := mkTag { text : string; attrs : gmap string string }.

(** A listing node ([li.s-item]) seen through the four [find] calls of
    [parse_item]; [None] is the [None] that [find] returns. *)
Record Item := mkItem {
  title_elem : option Tag;      (* item.find('div', class_='s-item__title') *)
  price_elem : option Tag;      (* item.find('span', class_='s-item__price') *)
  link_elem : option Tag;       (* item.find('a', class_='s-item__link') *)
  condition_elem : option Tag   (* item.find('span', class_='SECONDARY_INFO') *)
}.

(** A parsed page seen through the two queries of [process_page]. *)
Record Soup := mkSoup {
  s_items : list Item;            (* soup.find_all('li', class_='s-item') *)
  pagination_next : option Tag    (* soup.find('a', class_='pagination__next') *)
}.

(** What the [try] block of [process_page] ends with: the response, whose
    text BeautifulSoup parses into the document queried afterwards, or a
    [requests.RequestException] (a connection error, a timeout, or the
    [HTTPError] that [raise_for_status] raises). *)
Inductive Fetched :=
| Response (soup : Soup)
| RequestException (message : string).

(** The dictionary [parse_item] returns. *)
Record ItemData := mkItemData {
  title : string;
  condition : string;
  price : string;
  product_url : string
}.

Definition to_dict (d : ItemData) : list (string * string) :=
  [("title", title d); ("condition", condition d);
   ("price", price d); ("product_url", product_url d)].

Inductive Level := DEBUG | INFO | WARNING | ERROR.

(** One constructor per [self.logger] call of the methods embedded here,
    with the values its message interpolates. *)
Inductive Message :=
| SavedItem (item_id filename : string)
| SkippingItem (condition condition_filter : string)
| NoItemId (product_url : string)
| ParsedItem (title condition price : string)
| ProcessingPage (url : string)
| FetchFailed (url error : string)
| FoundItems (n : Z)
| SavingItems (n : Z)
| FoundNextPage (next_url : string)
| NoMorePages
| StartingCrawl (condition_filter : option string)
| ProcessingPageNumber (n : Z)
| ExtractedNewItems (new_items page : Z)
| CrawlCompleted (page_count item_count : Z).

Definition LogRecord : Type := Level * Message.

Inductive Exception :=
| KeyError (key : string).

(** The state the methods act on: the entries of [self.data_dir] with their
    contents, the records handed to [self.logger], oldest first, and the
    URLs handed to [requests.get], oldest first. *)
Record World := mkWorld {
  files : gmap string string;
  log : list LogRecord;
  requested : list string
}.

Inductive Result (A : Type) :=
| Ok (a : A)
| Raise (e : Exception).
Arguments Ok {A} a.
Arguments Raise {A} e.

(** A method: it runs from a state and ends, in a state, with a value or
    with an exception. *)
Definition M (A : Type) : Type := World -> Result A * World.

Definition ret {A} (a : A) : M A := fun w => (Ok a, w).

Definition raise {A} (e : Exception) : M A := fun w => (Raise e, w).

Definition bind {A B} (m : M A) (k : A -> M B) : M B :=
  fun w =>
    match m w with
    | (Ok a, w') => k a w'
    | (Raise e, w') => (Raise e, w')
    end.

Declare Scope crawl_scope.
Delimit Scope crawl_scope with crawl.
Notation "x <- m ;; k" := (bind m (fun x => k))
  (at level 100, m at next level, right associativity) : crawl_scope.
Notation "m ;; k" := (bind m (fun _ => k))
  (at level 100, right associativity) : crawl_scope.
Local Open Scope crawl_scope.

Definition emit (lvl : Level) (msg : Message) : M unit :=
  fun w => (Ok tt, mkWorld (files w) (log w ++ [(lvl, msg)]) (requested w)).

Definition write_file (name content : string) : M unit :=
  fun w => (Ok tt, mkWorld (<[name := content]> (files w)) (log w) (requested w)).

Definition note_request (url : string) : M unit :=
  fun w => (Ok tt, mkWorld (files w) (log w) (requested w ++ [url])).

(** [os.listdir(self.data_dir)], in the order the system gives. *)
Definition listdir (fs : gmap string string) : list string := elements (dom fs).

(** [len([f for f in os.listdir(self.data_dir) if f.endswith('.json')])] *)
Definition count_json (fs : gmap string string) : Z :=
  Z.of_nat (length (List.filter (Py.endswith ".json") (listdir fs))).

(** The same count as an action on the state. *)
Definition count_json_files : M Z := fun w => (Ok (count_json (files w)), w).

(** [tag[key]] *)
Definition getitem (t : Tag) (key : string) : M string :=
  match attrs t !! key with
  | Some v => ret v
  | None => raise (KeyError key)
  end.

Definition len {A} (l : list A) : Z := Z.of_nat (length l).

(** ** The methods of [EbayCrawler] *)

(** [extract_item_id(url)]: group 1 of [re.search(r'/itm/(\d+)', url)], or
    [None]. *)
Definition extract_item_id (url : string) : option string := Re.search_itm url.

(** [title_elem.text.strip() if title_elem else "No title"] *)
Definition title_of (item : Item) : string :=
  match title_elem item with
  | Some e => Py.strip (text e)
  | None => "No title"
  end.

(** The two assignments to [price]: the stripped text of the price element
    or ["0.00"], then [re.sub(r'[^\d.]', '', price.split(' to ')[0])]. *)
Definition normalize_price (price : string) : string :=
  Re.sub_non_price (Py.split_first " to " price).

Definition price_of (item : Item) : string :=
  normalize_price
    match price_elem item with
    | Some e => Py.strip (text e)
    | None => "0.00"
    end.

(** [condition_elem.text.strip() if condition_elem else "Unknown"] *)
Definition condition_of (item : Item) : string :=
  match condition_elem item with
  | Some e => Py.strip (text e)
  | None => "Unknown"
  end.

(** [condition_filter and condition.lower() != condition_filter.lower()] *)
Definition filtered_out (condition_filter : option string) (condition : string) : bool :=
  match condition_filter with
  | Some f => (Py.truthy f && negb (String.eqb (Py.lower condition) (Py.lower f)))%bool
  | None => false
  end.

(** [parse_item(item, condition_filter)]: the dictionary of the listing, or
    [None]. *)
Definition parse_item (item : Item) (condition_filter : option string)
  : M (option ItemData) :=
  let title := title_of item in
  let price := price_of item in
  product_url <- match link_elem item with
                 | Some e => (href <- getitem e "href";; ret (Some href))
                 | None => ret None
                 end;;
  match product_url with
  | None => ret None
  | Some product_url =>
      if negb (Py.truthy product_url) then ret None
      else
        let condition := condition_of item in
        if filtered_out condition_filter condition then
          emit DEBUG (SkippingItem condition (default "" condition_filter));;
          ret None
        else
          match extract_item_id product_url with
          | None =>
              emit WARNING (NoItemId product_url);;
              ret None
          | Some item_id =>
              (* [item_id] is never empty: [\d+] matches a digit at least *)
              if negb (Py.truthy item_id) then
                emit WARNING (NoItemId product_url);;
                ret None
              else
                emit DEBUG (ParsedItem title condition price);;
                ret (Some (mkItemData title condition price product_url))
          end
  end.

(** [write_json_file(item_id, data)]: the file [<item_id>.json] of the
    store's directory is opened with mode ['w'] and receives the dump. *)
Definition write_json_file (item_id : string) (data : ItemData) : M unit :=
  let filename := item_id +:+ ".json" in
  write_file filename (Json.dumps (to_dict data));;
  emit DEBUG (SavedItem item_id filename).

(** The [for] loop of [process_page]: the arguments of the
    [write_json_file] coroutines it appends to [tasks]. *)
Fixpoint collect_tasks (items : list Item) (condition_filter : option string)
  : M (list (string * ItemData)) :=
  match items with
  | [] => ret []
  | item :: items' =>
      item_data <- parse_item item condition_filter;;
      match item_data with
      | Some data =>
          match extract_item_id (product_url data) with
          | Some item_id =>
              if Py.truthy item_id then
                tasks <- collect_tasks items' condition_filter;;
                ret ((item_id, data) :: tasks)
              else collect_tasks items' condition_filter
          | None => collect_tasks items' condition_filter
          end
      | None => collect_tasks items' condition_filter
      end
  end.

(** [await asyncio.gather] on the collected [tasks]: here the writes run
    one after the other, in the order of [tasks].  The source runs them
    concurrently; this is exact when the identifiers of the page are
    distinct, every write going to a file of its own ([store_Permutation]).
    Two writes of one page to the same file may interleave in the source,
    and the content they leave there is not what this definition gives:
    the properties that state the content of a file ask for distinct
    identifiers on the page that writes it. *)
Fixpoint gather (tasks : list (string * ItemData)) : M unit :=
  match tasks with
  | [] => ret tt
  | (item_id, data) :: tasks' => write_json_file item_id data;; gather tasks'
  end.

Section Crawler.

(** [self.store_name] *)
Variable store_name : string.
(** [requests.get(url, headers=self.headers)] followed by
    [raise_for_status()] *)
Variable requests_get : string -> Fetched.
(** [urllib.parse.urljoin] *)
Variable urljoin : string -> string -> string.

Definition base_url : string :=
  "https://www.ebay.com/sch/" +:+ store_name +:+ "/m.html".

(** [process_page(url, condition_filter)]: the next URL, or [None]. *)
Definition process_page (url : string) (condition_filter : option string)
  : M (option string) :=
  emit INFO (ProcessingPage url);;
  note_request url;;
  match requests_get url with
  | RequestException e =>
      emit ERROR (FetchFailed url e);;
      ret None
  | Response soup =>
      let items := s_items soup in
      emit INFO (FoundItems (len items));;
      tasks <- collect_tasks items condition_filter;;
      match tasks with
      | [] => ret tt
      | _ => emit INFO (SavingItems (len tasks));; gather tasks
      end;;
      next_url <- match pagination_next soup with
                  | Some next_page =>
                      (href <- getitem next_page "href";;
                       ret (Some (urljoin base_url href)))
                  | None => ret None
                  end;;
      (if Py.truthy_opt next_url
       then emit INFO (FoundNextPage (default "" next_url))
       else emit INFO NoMorePages);;
      ret next_url
  end.

(** The [while url:] loop of [crawl] with its three local variables.  The
    loop of the source has no bound; [fuel] bounds the number of
    iterations here, and [None] is returned when it is used up before the
    loop ends. *)
Fixpoint crawl_loop (fuel : nat) (condition_filter : option string)
    (url : option string) (page_count item_count : Z)
  : M (option (Z * Z)) :=
  if Py.truthy_opt url then
    match fuel with
    | O => ret None
    | S fuel' =>
        emit INFO (ProcessingPageNumber (page_count + 1));;
        next_url <- process_page (default "" url) condition_filter;;
        current_items <- count_json_files;;
        let new_items := current_items - item_count in
        let item_count := current_items in
        emit INFO (ExtractedNewItems new_items (page_count + 1));;
        crawl_loop fuel' condition_filter next_url (page_count + 1) item_count
    end
  else
    emit INFO (CrawlCompleted page_count item_count);;
    ret (Some (page_count, item_count)).

(** [crawl(condition_filter)] *)
Definition crawl (fuel : nat) (condition_filter : option string)
  : M (option (Z * Z)) :=
  emit INFO (StartingCrawl condition_filter);;
  crawl_loop fuel condition_filter (Some base_url) 0 0.

End Crawler.

(** ** Vocabulary of the properties *)

(** [rest] does not begin with a decimal digit. *)
Definition no_digit_ahead (rest : string) : bool :=
  match rest with
  | String c _ => negb (Py.isdecimal c)
  | EmptyString => true
  end.

(** [ds] is a numeric segment of [url] that immediately follows an
    occurrence of the marker [/itm/]: a non-empty run of decimal digits,
    as long as it can be, with [pre] before the marker and [rest] after the
    run. *)
Definition segment_at (url pre ds rest : string) : Prop :=
  url = pre +:+ "/itm/" +:+ ds +:+ rest
  /\ ds <> ""
  /\ Py.all Py.isdecimal ds = true
  /\ no_digit_ahead rest = true.

Definition has_segment (url : string) : Prop :=
  exists pre ds rest, segment_at url pre ds rest.

(** [sep] occurs in [s]. *)
Definition contains (sep s : string) : Prop :=
  exists a b, s = a +:+ sep +:+ b.

(** [lo] is the text of [s] before the leftmost occurrence of [sep], and
    [hi] the text after that occurrence. *)
Definition first_occurrence (sep s lo hi : string) : Prop :=
  s = lo +:+ sep +:+ hi
  /\ forall lo' hi', s = lo' +:+ sep +:+ hi' ->
       (String.length lo <= String.length lo')%nat.

(** The state with more records in the log, nothing else changed. *)
Definition add_log (evs : list LogRecord) (w : World) : World :=
  mkWorld (files w) (log w ++ evs) (requested w).

(** What a method returns and what it logs when it starts from the empty
    state; for a method that only logs, this is what it returns and logs
    from any state ([logs_only]). *)
Definition result_of {A} (m : M A) : Result A := fst (m (mkWorld ∅ [] [])).
Definition events_of {A} (m : M A) : list LogRecord := log (snd (m (mkWorld ∅ [] []))).

Definition logs_only {A} (m : M A) : Prop :=
  forall w, m w = (result_of m, add_log (events_of m) w).

(** A listing node whose link anchor, when there is one, has an [href]
    attribute: reading it raises no [KeyError]. *)
Definition readable (item : Item) : Prop :=
  forall e, link_elem item = Some e -> is_Some (attrs e !! "href").

(** The arguments of the coroutine that the loop of [process_page] appends
    for a node, when it appends one. *)
Definition task_of (condition_filter : option string) (item : Item)
  : option (string * ItemData) :=
  match result_of (parse_item item condition_filter) with
  | Ok (Some data) =>
      match extract_item_id (product_url data) with
      | Some item_id => if Py.truthy item_id then Some (item_id, data) else None
      | None => None
      end
  | _ => None
  end.

Definition tasks_of (condition_filter : option string) (items : list Item)
  : list (string * ItemData) :=
  omap (task_of condition_filter) items.

(** What the [parse_item] calls of a page log. *)
Definition parse_events (condition_filter : option string) (items : list Item)
  : list LogRecord :=
  flat_map (fun item => events_of (parse_item item condition_filter)) items.

(** The directory after the writes of [tasks], in order. *)
Definition store (tasks : list (string * ItemData)) (fs : gmap string string)
  : gmap string string :=
  foldl (fun fs t => <[fst t +:+ ".json" := Json.dumps (to_dict (snd t))]> fs) fs tasks.

Definition saved_events (tasks : list (string * ItemData)) : list LogRecord :=
  List.map (fun t => (DEBUG, SavedItem (fst t) (fst t +:+ ".json"))) tasks.

Definition saving_events (tasks : list (string * ItemData)) : list LogRecord :=
  match tasks with
  | [] => []
  | _ => (INFO, SavingItems (len tasks)) :: saved_events tasks
  end.

Definition count_level (lvl : Level) (records : list LogRecord) : nat :=
  length (List.filter
            (fun r => match fst r, lvl with
                      | DEBUG, DEBUG | INFO, INFO | WARNING, WARNING | ERROR, ERROR => true
                      | _, _ => false
                      end) records).

(** The [new_items] values of the [ExtractedNewItems] records, oldest
    first. *)
Fixpoint deltas (records : list LogRecord) : list Z :=
  match records with
  | [] => []
  | (_, ExtractedNewItems new_items _) :: rest => new_items :: deltas rest
  | _ :: rest => deltas rest
  end.

Definition sum (l : list Z) : Z := fold_right Z.add 0 l.

Section Chains.

Variable store_name : string.
Variable requests_get : string -> Fetched.
Variable urljoin : string -> string -> string.

(** A page whose markup raises no [KeyError]. *)
Definition well_formed (soup : Soup) : Prop :=
  Forall readable (s_items soup)
  /\ forall e, pagination_next soup = Some e -> is_Some (attrs e !! "href").

(** The URL behind the next-page link of a page, when it has one. *)
Definition next_url_of (soup : Soup) : option string :=
  match pagination_next soup with
  | Some e => urljoin (base_url store_name) <$> attrs e !! "href"
  | None => None
  end.

(** What a [process_page] call logs for a page it could fetch. *)
Definition page_events (url : string) (condition_filter : option string)
    (soup : Soup) : list LogRecord :=
  [(INFO, ProcessingPage url); (INFO, FoundItems (len (s_items soup)))]
  ++ parse_events condition_filter (s_items soup)
  ++ saving_events (tasks_of condition_filter (s_items soup))
  ++ [(INFO, if Py.truthy_opt (next_url_of soup)
             then FoundNextPage (default "" (next_url_of soup))
             else NoMorePages)].

(** A finite pagination chain: [pages] are the pages the server gives
    from [url] on, each one linking to the next and the last one without
    a next-page link. *)
Inductive chain : string -> list Soup -> Prop :=
| chain_last url soup :
    requests_get url = Response soup ->
    well_formed soup ->
    pagination_next soup = None ->
    chain url [soup]
| chain_next url soup next_url pages :
    requests_get url = Response soup ->
    well_formed soup ->
    next_url_of soup = Some next_url ->
    chain next_url pages ->
    chain url (soup :: pages).

(** A chain cut by a failure: [pages] are fetched from [url] on, each one
    linking to the next, and the fetch of [bad], the URL the last of them
    links to, fails. *)
Inductive broken_chain : string -> list Soup -> string -> Prop :=
| broken_here url message :
    requests_get url = RequestException message ->
    broken_chain url [] url
| broken_next url soup next_url pages bad :
    requests_get url = Response soup ->
    well_formed soup ->
    next_url_of soup = Some next_url ->
    broken_chain next_url pages bad ->
    broken_chain url (soup :: pages) bad.

(** The URLs of the pages of a chain that starts at [url]. *)
Fixpoint chain_urls (url : string) (pages : list Soup) : list string :=
  match pages with
  | [] => []
  | soup :: pages' => url :: chain_urls (default "" (next_url_of soup)) pages'
  end.

End Chains.

(** The directory after the pages of a chain have been processed. *)
Fixpoint store_pages (condition_filter : option string) (pages : list Soup)
    (fs : gmap string string) : gmap string string :=
  match pages with
  | [] => fs
  | soup :: pages' =>
      store_pages condition_filter pages'
        (store (tasks_of condition_filter (s_items soup)) fs)
  end.

(** The server [requests_get], except that the URL [bad] now gives a page
    with no listing node and no next-page link. *)
Definition patched (requests_get : string -> Fetched) (bad : string)
  : string -> Fetched :=
  fun url => if String.eqb url bad then Response (mkSoup [] None) else requests_get url.

(** Case-insensitive equality of two condition labels, as the comparison of
    their [lower()] decides it. *)
Definition ci_eq (a b : string) : Prop := Py.lower a = Py.lower b.

(** A node with a resolvable [product_url] from which an [item_id] can be
    derived. *)
Definition valid_listing (item : Item) (url item_id : string) : Prop :=
  (exists e, link_elem item = Some e /\ attrs e !! "href" = Some url)
  /\ url <> ""
  /\ extract_item_id url = Some item_id.

(** The record parsed from a node is returned by [parse_item]. *)
Definition appears (item : Item) (condition_filter : option string) : Prop :=
  exists data, forall w, fst (parse_item item condition_filter w) = Ok (Some data).

(** Filter correctness as the specification words it: the record appears
    if and only if the filter is unset or the condition equals it, case
    apart. *)
Definition filter_claim (item : Item) (condition_filter : option string) : Prop :=
  appears item condition_filter
  <-> (condition_filter = None
       \/ exists f, condition_filter = Some f /\ ci_eq (condition_of item) f).

(** What the guard of [parse_item] lets through: no filter, an empty
    filter, or a filter that equals the condition, case apart. *)
Definition passes_filter (condition_filter : option string) (condition : string) : Prop :=
  condition_filter = None
  \/ condition_filter = Some ""
  \/ exists f, condition_filter = Some f /\ ci_eq condition f.

Definition is_dot (c : ascii) : bool := Ascii.eqb c ".".

(** Only digits and a single decimal point. *)
Definition plain_number (s : string) : Prop :=
  Py.all Re.digit_or_dot s = true /\ (Py.count is_dot s <= 1)%nat.

(** A node without a resolvable [product_url]: no link anchor, or an anchor
    whose [href] is the empty string. *)
Definition lacks_url (item : Item) : bool :=
  match link_elem item with
  | None => true
  | Some e =>
      match attrs e !! "href" with
      | Some url => negb (Py.truthy url)
      | None => false
      end
  end.

(** A node [parse_item] returns a record for. *)
Definition accepted (condition_filter : option string) (item : Item) : Prop :=
  exists url item_id,
    valid_listing item url item_id
    /\ filtered_out condition_filter (condition_of item) = false.

(** The discard of a node is observable: [parse_item] logs something. *)
Definition discard_logged (item : Item) (condition_filter : option string) : Prop :=
  forall w, log (snd (parse_item item condition_filter w)) <> log w.

(** Partial-page resilience as the specification words it: three records
    persisted and two warnings. *)
Definition partial_page_claim (before after : World) : Prop :=
  count_json (files after) = count_json (files before) + 3
  /\ count_level WARNING (log after) = (count_level WARNING (log before) + 2)%nat.

(** ** Sample markup and servers *)

Definition tag (s : string) : Tag := mkTag s ∅.

Definition anchor (href : string) : Tag := mkTag "" {[ "href" := href ]}.

Definition listing (title price url condition : string) : Item :=
  mkItem (Some (tag title)) (Some (tag price)) (Some (anchor url)) (Some (tag condition)).

Definition sample_new : Item :=
  listing "  Dell Latitude 7490 " "$1,234.56 to $1,999.00"
    "https://www.ebay.com/itm/1001?hash=item3a" "New".

Definition sample_used : Item :=
  listing "HP EliteBook" "$49.99" "https://www.ebay.com/itm/1002" "Used".

(** Only the link: no title, no price, no condition. *)
Definition sample_bare : Item :=
  mkItem None None (Some (anchor "https://www.ebay.com/itm/1003")) None.

(** No link anchor. *)
Definition sample_no_link : Item :=
  mkItem (Some (tag "Shop on eBay")) (Some (tag "$20.00")) None (Some (tag "Brand New")).

(** A link anchor with an empty [href]. *)
Definition sample_empty_href : Item :=
  listing "Lenovo ThinkPad" "$300.00" "" "New".

(** A link that does not lead to an item. *)
Definition sample_no_id : Item :=
  listing "Visit store" "$1.00" "https://www.ebay.com/usr/garlandcomputer" "New".

(** A price text with two full stops. *)
Definition sample_two_dots : Item :=
  listing "Acer Aspire" "US $12.50 approx." "https://www.ebay.com/itm/1004" "New".

Definition five_nodes : list Item :=
  [sample_new; sample_no_link; sample_used; sample_empty_href; sample_bare].

Definition sample_store : string := "garlandcomputer".

Definition page_two : string := "https://www.ebay.com/sch/garlandcomputer/m.html?_pgn=2".
Definition page_three : string := "https://www.ebay.com/sch/garlandcomputer/m.html?_pgn=3".

(** [urljoin] on the absolute links of the samples. *)
Definition sample_urljoin (base href : string) : string :=
  if String.eqb href "" then base else href.

(** A server with three pages; the second one has no valid listing. *)
Definition three_pages : list Soup :=
  [mkSoup [sample_new; sample_used] (Some (anchor page_two));
   mkSoup [sample_no_link; sample_no_id] (Some (anchor page_three));
   mkSoup [sample_bare] None].

Definition sample_get (url : string) : Fetched :=
  if String.eqb url (base_url sample_store) then Response (mkSoup [sample_new; sample_used] (Some (anchor page_two)))
  else if String.eqb url page_two then Response (mkSoup [sample_no_link; sample_no_id] (Some (anchor page_three)))
  else if String.eqb url page_three then Response (mkSoup [sample_bare] None)
  else RequestException "404 Client Error: Not Found".

(** The same server when its second page cannot be fetched. *)
Definition sample_get_broken (url : string) : Fetched :=
  if String.eqb url (base_url sample_store) then Response (mkSoup [sample_new; sample_used] (Some (anchor page_two)))
  else RequestException "503 Server Error: Service Unavailable".

(** A server whose only page has the five nodes. *)
Definition sample_get_five (url : string) : Fetched :=
  if String.eqb url (base_url sample_store) then Response (mkSoup five_nodes None)
  else RequestException "404 Client Error: Not Found".

Definition empty_world : World := mkWorld ∅ [] [].

(** A directory that holds two records of an earlier run and one other
    file. *)
Definition world_after_earlier_run : World :=
  mkWorld {[ "900.json" := "{}"; "901.json" := "{}"; "notes.txt" := "" ]} [] [].

(** ** The command line *)

(** [choices=['New', 'Pre-Owned', 'Used']] of the [--condition] argument. *)
Inductive Condition := New | PreOwned | Used.

Definition condition_text (c : Condition) : string :=
  match c with
  | New => "New"
  | PreOwned => "Pre-Owned"
  | Used => "Used"
  end.

(** The namespace [parse_args()] returns: [--condition] is absent or one of
    its choices, any other value is refused by the parser. *)
Record Args := mkArgs {
  args_store : string;                  (* --store, default "garlandcomputer" *)
  args_condition : option Condition;    (* --condition *)
  args_data_dir : string;               (* --data-dir, default "data" *)
  args_debug : bool                     (* --debug *)
}.

(** [args.condition], the filter [main] hands to [crawl]: [None], or the
    text of the choice. *)
Definition main_filter (args : Args) : option string :=
  condition_text <$> args_condition args.

(** ** Vocabulary of the further properties *)

(** The text of a file name before [.json] is an item identifier: digits,
    one at least. *)
Definition item_file (name : string) : Prop :=
  exists item_id,
    name = item_id +:+ ".json"
    /\ item_id <> ""
    /\ Py.all Py.isdecimal item_id = true.

(** A listing node whose link anchor has no [href] attribute. *)
Definition no_href (item : Item) : Prop :=
  exists e, link_elem item = Some e /\ attrs e !! "href" = None.

(** A set of URLs the server never lets the crawl leave: each of them gives
    a well-formed page whose next-page link leads to one of them again. *)
Definition closed_under_next (store_name : string)
    (requests_get : string -> Fetched) (urljoin : string -> string -> string)
    (visited : string -> Prop) : Prop :=
  forall url, visited url ->
    url <> ""
    /\ exists soup next_url,
         requests_get url = Response soup
         /\ well_formed soup
         /\ next_url_of store_name urljoin soup = Some next_url
         /\ visited next_url.

(** A printable ASCII character or the line feed. *)
Definition plain_ascii (c : ascii) : bool :=
  (Py.between 32 126 c || N.eqb (Py.code c) 10)%bool.

Definition hex_value (c : ascii) : option N :=
  if Py.between 48 57 c then Some (Py.code c - 48)%N
  else if Py.between 97 102 c then Some (Py.code c - 87)%N
  else None.

(** Reads back one character of the body of a JSON string literal, with
    what follows it; [None] at the closing quote. *)
Definition read_char (s : string) : option (ascii * string) :=
  match s with
  | EmptyString => None
  | String c rest =>
      if Ascii.eqb c Json.quote then None
      else if Ascii.eqb c Json.backslash then
        match rest with
        | String e rest' =>
            if Ascii.eqb e Json.quote then Some (Json.quote, rest')
            else if Ascii.eqb e Json.backslash then Some (Json.backslash, rest')
            else if Ascii.eqb e "n" then Some (ascii_of_N 10, rest')
            else if Ascii.eqb e "r" then Some (ascii_of_N 13, rest')
            else if Ascii.eqb e "t" then Some (ascii_of_N 9, rest')
            else if Ascii.eqb e "b" then Some (ascii_of_N 8, rest')
            else if Ascii.eqb e "f" then Some (ascii_of_N 12, rest')
            else if Ascii.eqb e "u" then
              match rest' with
              | String "0" (String "0" (String h (String l rest''))) =>
                  match hex_value h, hex_value l with
                  | Some hv, Some lv => Some (ascii_of_N (16 * hv + lv), rest'')
                  | _, _ => None
                  end
              | _ => None
              end
            else None
        | EmptyString => None
        end
      else Some (c, rest)
  end.

(** A server whose first page links to itself. *)
Definition sample_get_loop (url : string) : Fetched :=
  if String.eqb url (base_url sample_store)
  then Response (mkSoup [sample_new] (Some (anchor (base_url sample_store))))
  else RequestException "404 Client Error: Not Found".

(** A listing whose link anchor has no [href]. *)
Definition sample_no_href : Item :=
  mkItem (Some (tag "Asus ZenBook")) (Some (tag "$10.00")) (Some (tag "")) (Some (tag "New")).

(** A server whose only page holds a valid listing before that one. *)
Definition sample_get_no_href (url : string) : Fetched :=
  if String.eqb url (base_url sample_store)
  then Response (mkSoup [sample_new; sample_no_href; sample_used] None)
  else RequestException "404 Client Error: Not Found".

(** A server whose only page has a next-page anchor without [href]. *)
Definition sample_get_bad_next (url : string) : Fetched :=
  if String.eqb url (base_url sample_store)
  then Response (mkSoup [sample_new] (Some (tag "Next")))
  else RequestException "404 Client Error: Not Found".

(** * Properties *)

(** ** Strings *)

Lemma append_assoc (a b c : string) : (a +:+ b) +:+ c = a +:+ b +:+ c.
Proof. induction a as [|x a IH]; simpl; [reflexivity | now rewrite IH]. Qed.

Lemma strip_prefix_app p s : Py.strip_prefix p (p +:+ s) = Some s.
Proof.
  induction p as [|a p IH]; simpl; [reflexivity|].
  now rewrite Ascii.eqb_refl.
Qed.

Lemma strip_prefix_Some p s r : Py.strip_prefix p s = Some r -> s = p +:+ r.
Proof.
  revert s; induction p as [|a p IH]; intros s H; simpl in *.
  - now inversion H.
  - destruct s as [|b s]; [discriminate|].
    destruct (Ascii.eqb a b) eqn:E; [|discriminate].
    apply Ascii.eqb_eq in E; subst b. f_equal. now apply IH.
Qed.

Lemma digits_prefix_app ds rest :
  Py.all Py.isdecimal ds = true -> no_digit_ahead rest = true ->
  Re.digits_prefix (ds +:+ rest) = ds.
Proof.
  intros Hd Hr. induction ds as [|c ds IH]; simpl in *.
  - destruct rest as [|c r]; simpl in *; [reflexivity|].
    apply negb_true_iff in Hr. now rewrite Hr.
  - apply andb_true_iff in Hd as [Hc Hd]. rewrite Hc. f_equal. now apply IH.
Qed.

Lemma digits_prefix_split s :
  exists rest, s = Re.digits_prefix s +:+ rest
            /\ Py.all Py.isdecimal (Re.digits_prefix s) = true
            /\ no_digit_ahead rest = true.
Proof.
  induction s as [|c s (rest & E & Ha & Hr)]; simpl.
  - exists ""; auto.
  - destruct (Py.isdecimal c) eqn:Hc; simpl.
    + exists rest. rewrite Hc, Ha. split; [now f_equal | auto].
    + exists (String c s). simpl. rewrite Hc. auto.
Qed.
#[local] Arguments Ascii.eqb : simpl never.
#[local] Arguments Py.isdecimal : simpl never.

Lemma match_itm_segment ds rest :
  ds <> "" -> Py.all Py.isdecimal ds = true -> no_digit_ahead rest = true ->
  Re.match_itm ("/itm/" +:+ ds +:+ rest) = Some ds.
Proof.
  intros Hne Hd Hr. unfold Re.match_itm.
  rewrite strip_prefix_app, digits_prefix_app by assumption.
  destruct ds; [congruence | reflexivity].
Qed.

Lemma match_itm_Some s ds :
  Re.match_itm s = Some ds -> exists rest, segment_at s "" ds rest.
Proof.
  unfold Re.match_itm, segment_at. intros H.
  destruct (Py.strip_prefix "/itm/" s) as [r|] eqn:E; [|discriminate].
  apply strip_prefix_Some in E. subst s.
  destruct (digits_prefix_split r) as (rest & Er & Ha & Hr).
  assert (Re.digits_prefix r = ds) as Hds
    by (destruct (Re.digits_prefix r); [discriminate | congruence]).
  rewrite Hds in *. exists rest.
  repeat split; auto.
  - simpl. now rewrite Er at 1.
  - intros ->. discriminate.
Qed.

(** A match anchored at the head of a string survives when text is added
    at its end (the group may grow). *)
Lemma match_itm_app_Some p t ds :
  Re.match_itm p = Some ds -> exists ds', Re.match_itm (p +:+ t) = Some ds'.
Proof.
  unfold Re.match_itm. intros H.
  destruct (Py.strip_prefix "/itm/" p) as [r|] eqn:E; [|discriminate].
  apply strip_prefix_Some in E. subst p.
  rewrite append_assoc, strip_prefix_app.
  destruct r as [|c r]; [discriminate|]. simpl in *.
  destruct (Py.isdecimal c); [eauto | discriminate].
Qed.

(** No match starts inside a non-empty [pre] and runs into a marker put
    after it, unless it is already a match of [pre]. *)
Lemma match_itm_before_marker pre t :
  pre <> "" -> Re.match_itm pre = None ->
  Re.match_itm (pre +:+ "/itm/" +:+ t) = None.
Proof.
  intros Hne H. unfold Re.match_itm in *.
  destruct pre as [|c1 pre]; [congruence|]. clear Hne.
  simpl in *. destruct (Ascii.eqb "/" c1); [|reflexivity].
  destruct pre as [|c2 pre]; [reflexivity|].
  simpl in *. destruct (Ascii.eqb "i" c2); [|reflexivity].
  destruct pre as [|c3 pre]; [reflexivity|].
  simpl in *. destruct (Ascii.eqb "t" c3); [|reflexivity].
  destruct pre as [|c4 pre]; [reflexivity|].
  simpl in *. destruct (Ascii.eqb "m" c4); [|reflexivity].
  destruct pre as [|c5 pre]; [reflexivity|].
  simpl in *. destruct (Ascii.eqb "/" c5); [|reflexivity].
  destruct pre as [|c6 pre]; [reflexivity|].
  simpl in *. destruct (Py.isdecimal c6); [discriminate | reflexivity].
Qed.

Lemma search_itm_eq s :
  Re.search_itm s =
  match Re.match_itm s with
  | Some ds => Some ds
  | None => match s with
            | EmptyString => None
            | String _ s' => Re.search_itm s'
            end
  end.
Proof. destruct s; reflexivity. Qed.

Lemma search_itm_first url pre ds rest :
  segment_at url pre ds rest -> Re.search_itm pre = None ->
  Re.search_itm url = Some ds.
Proof.
  intros (-> & Hne & Hd & Hr). induction pre as [|c pre IH]; intros Hpre.
  - rewrite search_itm_eq. change ("" +:+ "/itm/" +:+ ds +:+ rest)
      with ("/itm/" +:+ ds +:+ rest).
    now rewrite match_itm_segment.
  - rewrite search_itm_eq in Hpre.
    destruct (Re.match_itm (String c pre)) eqn:Hm; [discriminate|].
    rewrite search_itm_eq.
    rewrite match_itm_before_marker by (auto; discriminate).
    now apply IH.
Qed.

Lemma search_itm_Some url ds :
  Re.search_itm url = Some ds ->
  exists pre rest, segment_at url pre ds rest /\ Re.search_itm pre = None.
Proof.
  induction url as [|c url IH]; intros H.
  - discriminate.
  - rewrite search_itm_eq in H.
    destruct (Re.match_itm (String c url)) as [d|] eqn:Hm.
    + inversion H; subst d. apply match_itm_Some in Hm as [rest Hm].
      exists "", rest. split; [exact Hm | reflexivity].
    + destruct (IH H) as (pre & rest & Hseg & Hpre).
      exists (String c pre), rest. split.
      * destruct Hseg as (-> & ?). split; [reflexivity | assumption].
      * rewrite search_itm_eq, Hpre.
        destruct (Re.match_itm (String c pre)) as [d|] eqn:Hm'; [|reflexivity].
        destruct Hseg as (-> & _).
        apply (match_itm_app_Some _ ("/itm/" +:+ ds +:+ rest)) in Hm' as [d' Hd'].
        change (Re.match_itm (String c (pre +:+ "/itm/" +:+ ds +:+ rest)) = Some d') in Hd'.
        congruence.
Qed.

Lemma search_itm_None url : Re.search_itm url = None -> ~ has_segment url.
Proof.
  intros H (pre & ds & rest & -> & Hne & Hd & Hr).
  induction pre as [|c pre IH]; rewrite search_itm_eq in H.
  - change ("" +:+ "/itm/" +:+ ds +:+ rest) with ("/itm/" +:+ ds +:+ rest) in H.
    rewrite match_itm_segment in H by assumption. discriminate.
  - destruct (Re.match_itm _); [discriminate | auto].
Qed.

(** The marker position fixes the segment. *)
Lemma segment_at_inj url pre ds rest ds' rest' :
  segment_at url pre ds rest -> segment_at url pre ds' rest' -> ds = ds'.
Proof.
  intros (-> & _ & Hd & Hr) (E & _ & Hd' & Hr').
  apply (inj (String.app pre)), (inj (String.app "/itm/")) in E.
  apply (f_equal Re.digits_prefix) in E.
  now rewrite !digits_prefix_app in E by assumption.
Qed.

(** ** The text before [' to '] *)

Lemma startswith_true sep s :
  Py.startswith sep s = true <-> exists r, s = sep +:+ r.
Proof.
  unfold Py.startswith. split.
  - destruct (Py.strip_prefix sep s) as [r|] eqn:E; [|discriminate].
    intros _. exists r. now apply strip_prefix_Some.
  - intros [r ->]. now rewrite strip_prefix_app.
Qed.

Lemma split_first_eq sep s :
  Py.split_first sep s =
  if Py.startswith sep s then EmptyString
  else match s with
       | EmptyString => EmptyString
       | String c s' => String c (Py.split_first sep s')
       end.
Proof. destruct s; reflexivity. Qed.

Lemma split_first_leftmost sep s lo hi :
  first_occurrence sep s lo hi -> Py.split_first sep s = lo.
Proof.
  revert s. induction lo as [|c lo IH]; intros s [-> Hmin]; rewrite split_first_eq.
  - replace (Py.startswith sep ("" +:+ sep +:+ hi)) with true; [reflexivity|].
    symmetry. apply startswith_true. now exists hi.
  - destruct (Py.startswith sep (String c lo +:+ sep +:+ hi)) eqn:E.
    + apply startswith_true in E as [r E].
      specialize (Hmin "" r E). simpl in Hmin. lia.
    + simpl. f_equal. apply IH. split; [reflexivity|].
      intros lo' hi' E'. specialize (Hmin (String c lo') hi').
      simpl in Hmin. rewrite E' in Hmin. specialize (Hmin eq_refl). lia.
Qed.

Lemma split_first_absent sep s :
  ~ contains sep s -> Py.split_first sep s = s.
Proof.
  induction s as [|c s IH]; intros Hn; rewrite split_first_eq.
  - destruct (Py.startswith sep "") eqn:E; reflexivity.
  - destruct (Py.startswith sep (String c s)) eqn:E.
    + apply startswith_true in E as [r E]. exfalso. apply Hn.
      exists "", r. exact E.
    + f_equal. apply IH. intros (a & b & ->). apply Hn.
      now exists (String c a), b.
Qed.

Lemma all_keep f s : Py.all f (Py.keep f s) = true.
Proof.
  induction s as [|c s IH]; simpl; [reflexivity|].
  destruct (f c) eqn:E; simpl; [now rewrite E|assumption].
Qed.

(** ** The monad of the methods *)

Lemma add_log_nil w : add_log [] w = w.
Proof. destruct w; unfold add_log; simpl. now rewrite app_nil_r. Qed.

Lemma add_log_add_log evs evs' w :
  add_log evs' (add_log evs w) = add_log (evs ++ evs') w.
Proof. unfold add_log; simpl. now rewrite <- app_assoc. Qed.

Lemma logs_only_intro {A} (m : M A) r evs :
  (forall w, m w = (r, add_log evs w)) -> logs_only m.
Proof.
  intros H w. unfold result_of, events_of. rewrite !H. reflexivity.
Qed.


(** ** [parse_item], branch by branch *)

Lemma search_itm_nonempty url ds : Re.search_itm url = Some ds -> ds <> "".
Proof.
  intros H. apply search_itm_Some in H as (pre & rest & (_ & Hne & _) & _).
  exact Hne.
Qed.

Lemma truthy_true s : Py.truthy s = true <-> s <> "".
Proof. destruct s; cbv; split; congruence. Qed.

Lemma truthy_false s : Py.truthy s = false <-> s = "".
Proof. destruct s; cbv; split; congruence. Qed.

Section ParseItem.

Variables (item : Item) (condition_filter : option string).

Lemma parse_item_no_link w :
  link_elem item = None ->
  parse_item item condition_filter w = (Ok None, w).
Proof. intros H. unfold parse_item, bind, ret. now rewrite H. Qed.

Lemma parse_item_no_href e w :
  link_elem item = Some e -> attrs e !! "href" = None ->
  parse_item item condition_filter w = (Raise (KeyError "href"), w).
Proof.
  intros H Ha. unfold parse_item, bind, ret, getitem. now rewrite H, Ha.
Qed.

Lemma parse_item_empty_href e w :
  link_elem item = Some e -> attrs e !! "href" = Some "" ->
  parse_item item condition_filter w = (Ok None, w).
Proof.
  intros H Ha. unfold parse_item, bind, ret, getitem. now rewrite H, Ha.
Qed.

Variables (e : Tag) (url : string).
Hypothesis Hlink : link_elem item = Some e.
Hypothesis Hhref : attrs e !! "href" = Some url.
Hypothesis Hurl : url <> "".

Lemma parse_item_filtered w :
  filtered_out condition_filter (condition_of item) = true ->
  parse_item item condition_filter w =
  (Ok None,
   add_log [(DEBUG, SkippingItem (condition_of item) (default "" condition_filter))] w).
Proof.
  intros Hf. unfold parse_item, getitem, bind. rewrite Hlink, Hhref.
  apply truthy_true in Hurl. unfold ret; cbv beta iota. rewrite Hurl. simpl. now rewrite Hf.
Qed.

Lemma parse_item_no_id w :
  filtered_out condition_filter (condition_of item) = false ->
  extract_item_id url = None ->
  parse_item item condition_filter w =
  (Ok None, add_log [(WARNING, NoItemId url)] w).
Proof.
  intros Hf Hid. unfold parse_item, getitem, bind. rewrite Hlink, Hhref.
  apply truthy_true in Hurl. unfold ret; cbv beta iota. rewrite Hurl. simpl. now rewrite Hf, Hid.
Qed.

Lemma parse_item_accepted item_id w :
  filtered_out condition_filter (condition_of item) = false ->
  extract_item_id url = Some item_id ->
  parse_item item condition_filter w =
  (Ok (Some (mkItemData (title_of item) (condition_of item) (price_of item) url)),
   add_log [(DEBUG, ParsedItem (title_of item) (condition_of item) (price_of item))] w).
Proof.
  intros Hf Hid. unfold parse_item, getitem, bind. rewrite Hlink, Hhref.
  apply truthy_true in Hurl. unfold ret; cbv beta iota. rewrite Hurl. simpl. rewrite Hf, Hid.
  apply search_itm_nonempty, truthy_true in Hid. now rewrite Hid.
Qed.

End ParseItem.

Lemma parse_item_logs_only item condition_filter :
  logs_only (parse_item item condition_filter).
Proof.
  destruct (link_elem item) as [e|] eqn:Hl.
  - destruct (attrs e !! "href") as [url|] eqn:Ha.
    + destruct (String.eqb_spec url "") as [->|Hne].
      * eapply (logs_only_intro _ _ []). intros w. rewrite add_log_nil.
        eapply parse_item_empty_href; eauto.
      * destruct (filtered_out condition_filter (condition_of item)) eqn:Hf.
        { eapply logs_only_intro. intros w. eapply parse_item_filtered; eauto. }
        destruct (extract_item_id url) as [item_id|] eqn:Hid.
        { eapply logs_only_intro. intros w. eapply parse_item_accepted; eauto. }
        { eapply logs_only_intro. intros w. eapply parse_item_no_id; eauto. }
    + eapply (logs_only_intro _ _ []). intros w. rewrite add_log_nil.
      eapply parse_item_no_href; eauto.
  - eapply (logs_only_intro _ _ []). intros w. rewrite add_log_nil.
    now apply parse_item_no_link.
Qed.

(** ** [collect_tasks], [gather] and [process_page] *)

Lemma readable_result item condition_filter :
  readable item ->
  exists r, result_of (parse_item item condition_filter) = Ok r.
Proof.
  intros Hr. unfold result_of.
  destruct (link_elem item) as [e|] eqn:Hl.
  - destruct (Hr e Hl) as [url Ha].
    destruct (String.eqb_spec url "") as [->|Hne].
    + erewrite parse_item_empty_href; eauto.
    + destruct (filtered_out condition_filter (condition_of item)) eqn:Hf.
      { erewrite parse_item_filtered; eauto. }
      destruct (extract_item_id url) as [item_id|] eqn:Hid.
      { erewrite parse_item_accepted; eauto. }
      { erewrite parse_item_no_id; eauto. }
  - rewrite parse_item_no_link; eauto.
Qed.

Lemma collect_tasks_cons item items condition_filter w :
  collect_tasks (item :: items) condition_filter w =
  match result_of (parse_item item condition_filter) with
  | Raise e => (Raise e, add_log (events_of (parse_item item condition_filter)) w)
  | Ok _ =>
      let w' := add_log (events_of (parse_item item condition_filter)) w in
      match task_of condition_filter item with
      | Some t =>
          match collect_tasks items condition_filter w' with
          | (Ok tasks, w'') => (Ok (t :: tasks), w'')
          | (Raise e, w'') => (Raise e, w'')
          end
      | None => collect_tasks items condition_filter w'
      end
  end.
Proof.
  unfold task_of. simpl collect_tasks. unfold bind at 1.
  rewrite (parse_item_logs_only item condition_filter w).
  destruct (result_of (parse_item item condition_filter)) as [[data|]|e];
    try reflexivity.
  cbv zeta. destruct (extract_item_id (product_url data)) as [item_id|];
    [|reflexivity].
  destruct (Py.truthy item_id); reflexivity.
Qed.

Lemma collect_tasks_readable items condition_filter w :
  Forall readable items ->
  collect_tasks items condition_filter w =
  (Ok (tasks_of condition_filter items),
   add_log (parse_events condition_filter items) w).
Proof.
  intros H. revert w. induction H as [|item items Hr _ IH]; intros w.
  - simpl. now rewrite add_log_nil.
  - rewrite collect_tasks_cons.
    destruct (readable_result item condition_filter Hr) as [r ->].
    cbv zeta. unfold tasks_of, parse_events. simpl.
    rewrite <- add_log_add_log.
    destruct (task_of condition_filter item) as [t|]; rewrite IH; reflexivity.
Qed.

Lemma gather_run tasks w :
  gather tasks w =
  (Ok tt, mkWorld (store tasks (files w)) (log w ++ saved_events tasks) (requested w)).
Proof.
  revert w. induction tasks as [|[item_id data] tasks IH]; intros w.
  - simpl. unfold ret. destruct w; simpl. now rewrite app_nil_r.
  - simpl gather. unfold bind, write_json_file, bind, write_file, emit.
    rewrite IH. simpl. now rewrite <- app_assoc.
Qed.

Section ProcessPage.

Variable store_name : string.
Variable requests_get : string -> Fetched.
Variable urljoin : string -> string -> string.

Lemma process_page_failed url condition_filter message w :
  requests_get url = RequestException message ->
  process_page store_name requests_get urljoin url condition_filter w =
  (Ok None,
   mkWorld (files w)
     (log w ++ [(INFO, ProcessingPage url); (ERROR, FetchFailed url message)])
     (requested w ++ [url])).
Proof.
  intros H. unfold process_page, bind, emit, note_request, ret. rewrite H.
  simpl. now rewrite <- app_assoc.
Qed.

Lemma process_page_fetched url condition_filter soup w :
  requests_get url = Response soup ->
  well_formed soup ->
  process_page store_name requests_get urljoin url condition_filter w =
  (Ok (next_url_of store_name urljoin soup),
   mkWorld (store (tasks_of condition_filter (s_items soup)) (files w))
     (log w ++ page_events store_name urljoin url condition_filter soup)
     (requested w ++ [url])).
Proof.
  intros H [Hitems Hnext]. unfold process_page. unfold bind at 1 2.
  unfold emit at 1, note_request. cbv beta iota. rewrite H.
  unfold bind at 1. unfold emit at 1. cbv beta iota.
  unfold bind at 1. rewrite collect_tasks_readable by assumption.
  unfold page_events, next_url_of.
  set (tasks := tasks_of condition_filter (s_items soup)).
  set (evs := parse_events condition_filter (s_items soup)).
  unfold bind at 1.
  assert (forall w0,
    match tasks with
    | [] => ret ()
    | _ :: _ => bind (emit INFO (SavingItems (len tasks))) (fun _ => gather tasks)
    end w0 =
    (Ok tt, mkWorld (store tasks (files w0)) (log w0 ++ saving_events tasks)
              (requested w0))) as Hsave.
  { intros w0. destruct tasks as [|t tasks'] eqn:Et.
    - unfold ret. destruct w0; simpl. now rewrite app_nil_r.
    - unfold bind, emit. rewrite gather_run. simpl.
      now rewrite <- app_assoc. }
  rewrite Hsave. clear Hsave. cbv beta iota. unfold add_log; simpl.
  destruct (pagination_next soup) as [e|] eqn:Hp.
  - destruct (Hnext e eq_refl) as [href Ha]. rewrite Ha.
    unfold bind, getitem. rewrite Ha. unfold ret, emit. simpl.
    destruct (Py.truthy (urljoin (base_url store_name) href));
      simpl; rewrite <- !app_assoc; reflexivity.
  - unfold bind, ret, emit. simpl. rewrite <- !app_assoc. reflexivity.
Qed.

End ProcessPage.

(** ** Counting the [.json] files *)

Lemma endswith_eq suf s :
  Py.endswith suf s =
  if String.eqb s suf then true
  else match s with
       | EmptyString => false
       | String _ s' => Py.endswith suf s'
       end.
Proof. destruct s; reflexivity. Qed.

Lemma endswith_app suf a : Py.endswith suf (a +:+ suf) = true.
Proof.
  induction a as [|c a IH]; rewrite endswith_eq.
  - simpl. now rewrite String.eqb_refl.
  - destruct (String.eqb _ suf); [reflexivity | exact IH].
Qed.

Lemma length_append a b :
  String.length (a +:+ b) = (String.length a + String.length b)%nat.
Proof. induction a as [|c a IH]; simpl; [reflexivity | now rewrite IH]. Qed.

Lemma append_inj_r a b suf : a +:+ suf = b +:+ suf -> a = b.
Proof.
  revert b. induction a as [|c a IH]; intros [|d b] H.
  - reflexivity.
  - apply (f_equal String.length) in H. simpl in H. rewrite length_append in H. lia.
  - apply (f_equal String.length) in H. simpl in H. rewrite length_append in H. lia.
  - simpl in H. inversion H. f_equal. now apply IH.
Qed.

Lemma filter_length_submseteq {A} (f : A -> bool) (l1 l2 : list A) :
  l1 ⊆+ l2 -> (length (List.filter f l1) <= length (List.filter f l2))%nat.
Proof.
  induction 1 as [|x l1 l2 _ IH|x y l|x l1 l2 _ IH|l1 l2 l3 _ IH1 _ IH2]; simpl.
  - lia.
  - destruct (f x); simpl; lia.
  - destruct (f x), (f y); simpl; lia.
  - destruct (f x); simpl; lia.
  - lia.
Qed.

Lemma filter_length_Permutation {A} (f : A -> bool) (l1 l2 : list A) :
  l1 ≡ₚ l2 -> length (List.filter f l1) = length (List.filter f l2).
Proof.
  intros H. apply Nat.le_antisymm; apply filter_length_submseteq;
    now rewrite H.
Qed.

Lemma count_json_mono (fs fs' : gmap string string) :
  dom fs ⊆ dom fs' -> count_json fs <= count_json fs'.
Proof.
  intros H. unfold count_json, listdir. apply inj_le.
  apply filter_length_submseteq. now apply elements_submseteq.
Qed.

Lemma count_json_insert_fresh (fs : gmap string string) name content :
  fs !! name = None -> Py.endswith ".json" name = true ->
  count_json (<[name := content]> fs) = count_json fs + 1.
Proof.
  intros Hfresh Hjson. unfold count_json, listdir.
  rewrite dom_insert_L.
  rewrite (filter_length_Permutation _ _ (name :: elements (dom fs))).
  - simpl. rewrite Hjson. simpl length. lia.
  - apply elements_union_singleton. now apply not_elem_of_dom.
Qed.

Lemma count_json_insert_old (fs : gmap string string) name content :
  is_Some (fs !! name) ->
  count_json (<[name := content]> fs) = count_json fs.
Proof.
  intros Hold. unfold count_json, listdir. rewrite dom_insert_L.
  replace ({[name]} ∪ dom fs) with (dom fs); [reflexivity|].
  apply elem_of_dom in Hold. set_solver.
Qed.

Lemma dom_store tasks (fs : gmap string string) :
  dom (store tasks fs) =
  list_to_set (List.map (fun t => fst t +:+ ".json") tasks) ∪ dom fs.
Proof.
  revert fs. induction tasks as [|t tasks IH]; intros fs.
  - simpl. set_solver.
  - simpl. change (dom (store tasks (<[fst t +:+ ".json" := Json.dumps (to_dict (snd t))]> fs)) = {[fst t +:+ ".json"]} ∪ list_to_set (List.map (fun t => fst t +:+ ".json") tasks) ∪ dom fs).
    rewrite IH, dom_insert_L. set_solver.
Qed.

Lemma store_mono tasks (fs : gmap string string) : dom fs ⊆ dom (store tasks fs).
Proof. rewrite dom_store. set_solver. Qed.

(** The writes of a page with distinct identifiers commute: the directory
    they leave does not depend on the order in which they complete. *)
Lemma store_Permutation tasks tasks' (fs : gmap string string) :
  NoDup (List.map fst tasks) -> tasks ≡ₚ tasks' ->
  store tasks fs = store tasks' fs.
Proof.
  intros Hnd Hp. revert fs Hnd.
  induction Hp as [|t l l' _ IH|t t' l|l l' l'' Hp1 IH1 _ IH2]; intros fs Hnd.
  - reflexivity.
  - simpl in Hnd. apply NoDup_cons in Hnd as [_ Hnd]. apply IH, Hnd.
  - unfold store. simpl. f_equal. apply insert_insert_ne.
    simpl in Hnd. apply NoDup_cons in Hnd as [Hnotin _].
    intros Heq. apply append_inj_r in Heq. apply Hnotin. rewrite Heq. left.
  - rewrite IH1 by assumption. apply IH2. now rewrite <- Hp1.
Qed.

(** Writing files with distinct names, none of them in the directory yet,
    adds as many [.json] files as there are tasks. *)
Lemma count_json_store tasks (fs : gmap string string) :
  NoDup (List.map fst tasks) ->
  (forall t, t ∈ tasks -> fs !! (fst t +:+ ".json") = None) ->
  count_json (store tasks fs) = count_json fs + len tasks.
Proof.
  revert fs. induction tasks as [|t tasks IH]; intros fs Hnd Hfresh.
  - unfold len. simpl. lia.
  - simpl in Hnd. apply NoDup_cons in Hnd as [Hnotin Hnd].
    change (store (t :: tasks) fs)
      with (store tasks (<[fst t +:+ ".json" := Json.dumps (to_dict (snd t))]> fs)).
    rewrite IH.
    + rewrite count_json_insert_fresh.
      * unfold len. simpl length. lia.
      * apply Hfresh. left.
      * apply endswith_app.
    + exact Hnd.
    + intros t' Hin. rewrite lookup_insert_ne.
      * apply Hfresh. now right.
      * intros Heq. apply append_inj_r in Heq.
        apply Hnotin. apply list_elem_of_In. apply in_map_iff.
        exists t'. split; [now symmetry | now apply list_elem_of_In].
Qed.

(** ** The loop of [crawl] *)

Lemma deltas_app l1 l2 : deltas (l1 ++ l2) = deltas l1 ++ deltas l2.
Proof.
  induction l1 as [|[lvl msg] l1 IH]; simpl; [reflexivity|].
  destruct msg; simpl; now rewrite ?IH.
Qed.

Lemma sum_app l1 l2 : sum (l1 ++ l2) = sum l1 + sum l2.
Proof. induction l1 as [|x l1 IH]; simpl; [reflexivity | rewrite IH; lia]. Qed.

Lemma count_level_app lvl l1 l2 :
  count_level lvl (l1 ++ l2) = (count_level lvl l1 + count_level lvl l2)%nat.
Proof. unfold count_level. now rewrite List.filter_app, length_app. Qed.

(** The records [parse_item] can log: none, or one of three. *)
Lemma parse_item_events item condition_filter :
  events_of (parse_item item condition_filter) = []
  \/ (exists c f, events_of (parse_item item condition_filter) = [(DEBUG, SkippingItem c f)])
  \/ (exists u, events_of (parse_item item condition_filter) = [(WARNING, NoItemId u)]
                /\ exists e, link_elem item = Some e /\ attrs e !! "href" = Some u
                             /\ u <> "" /\ extract_item_id u = None)
  \/ (exists t c p, events_of (parse_item item condition_filter) = [(DEBUG, ParsedItem t c p)]).
Proof.
  unfold events_of.
  destruct (link_elem item) as [e|] eqn:Hl.
  - destruct (attrs e !! "href") as [url|] eqn:Ha.
    + destruct (String.eqb_spec url "") as [->|Hne].
      * erewrite parse_item_empty_href by eauto. now left.
      * destruct (filtered_out condition_filter (condition_of item)) eqn:Hf.
        { erewrite parse_item_filtered by eauto. right; left. simpl. eauto. }
        destruct (extract_item_id url) as [item_id|] eqn:Hid.
        { erewrite parse_item_accepted by eauto. do 3 right. simpl. eauto. }
        { erewrite parse_item_no_id by eauto. right; right; left. simpl.
          exists url. split; [reflexivity|]. exists e. auto. }
    + erewrite parse_item_no_href by eauto. now left.
  - rewrite parse_item_no_link by eauto. now left.
Qed.

Lemma deltas_parse_events condition_filter items :
  deltas (parse_events condition_filter items) = [].
Proof.
  unfold parse_events. induction items as [|item items IH]; simpl; [reflexivity|].
  rewrite deltas_app, IH, app_nil_r.
  destruct (parse_item_events item condition_filter)
    as [-> | [(c & f & ->) | [(u & -> & _) | (t & c & p & ->)]]]; reflexivity.
Qed.

Lemma deltas_saved_events tasks : deltas (saved_events tasks) = [].
Proof. induction tasks as [|t tasks IH]; simpl; [reflexivity | exact IH]. Qed.

Lemma deltas_page_events store_name urljoin url condition_filter soup :
  deltas (page_events store_name urljoin url condition_filter soup) = [].
Proof.
  unfold page_events. rewrite !deltas_app, deltas_parse_events.
  unfold saving_events.
  destruct (tasks_of condition_filter (s_items soup)); simpl;
    rewrite ?deltas_saved_events;
    destruct (Py.truthy_opt (next_url_of store_name urljoin soup)); reflexivity.
Qed.

(** A listing node that is not [readable] stops the loop of
    [process_page] with a [KeyError]. *)
Lemma collect_tasks_Ok items condition_filter w tasks w' :
  collect_tasks items condition_filter w = (Ok tasks, w') ->
  Forall readable items.
Proof.
  revert w tasks w'. induction items as [|item items IH]; intros w tasks w' H.
  - constructor.
  - rewrite collect_tasks_cons in H.
    assert (readable item) as Hr.
    { intros e He. destruct (attrs e !! "href") eqn:Ha; [eauto|].
      unfold result_of in H. erewrite parse_item_no_href in H by eauto.
      discriminate. }
    constructor; [exact Hr|].
    destruct (readable_result item condition_filter Hr) as [r Er].
    rewrite Er in H. cbv zeta in H.
    destruct (task_of condition_filter item).
    + destruct (collect_tasks items condition_filter _) as [[ts|e] w''] eqn:E;
        [eapply IH; eauto | discriminate].
    + eapply IH; eauto.
Qed.

Section CrawlLoop.

Variable store_name : string.
Variable requests_get : string -> Fetched.
Variable urljoin : string -> string -> string.

Local Abbreviation page := (process_page store_name requests_get urljoin).
Local Abbreviation loop := (crawl_loop store_name requests_get urljoin).

(** [process_page] returns normally only after a failed fetch or on a
    well-formed page. *)
Lemma process_page_Ok url condition_filter w r w' :
  page url condition_filter w = (Ok r, w') ->
  (exists message, requests_get url = RequestException message)
  \/ (exists soup, requests_get url = Response soup /\ well_formed soup).
Proof.
  intros H. destruct (requests_get url) as [soup|message] eqn:Hget; [|eauto].
  right. exists soup. split; [reflexivity|].
  unfold process_page in H. unfold bind at 1 2 in H.
  unfold emit at 1, note_request in H. cbv beta iota in H. rewrite Hget in H.
  unfold bind at 1 in H. unfold emit at 1 in H. cbv beta iota in H.
  unfold bind at 1 in H.
  destruct (collect_tasks (s_items soup) condition_filter _)
    as [[tasks|e] w1] eqn:Hc; [|discriminate].
  split; [eapply collect_tasks_Ok; eauto|].
  intros e He. destruct (attrs e !! "href") eqn:Ha; [eauto|]. exfalso.
  unfold bind at 1 in H.
  destruct (match tasks with [] => ret () | _ :: _ => _ end w1) as [[[]|e1] w2];
    [|discriminate].
  rewrite He in H. unfold bind at 1 2, getitem in H. rewrite Ha in H.
  discriminate.
Qed.

Lemma crawl_loop_done fuel condition_filter url page_count item_count w :
  Py.truthy_opt url = false ->
  loop fuel condition_filter url page_count item_count w =
  (Ok (Some (page_count, item_count)),
   add_log [(INFO, CrawlCompleted page_count item_count)] w).
Proof. intros H. destruct fuel; simpl; rewrite H; reflexivity. Qed.

Lemma crawl_loop_out_of_fuel condition_filter url page_count item_count w :
  Py.truthy_opt url = true ->
  loop 0 condition_filter url page_count item_count w = (Ok None, w).
Proof. intros H. simpl. rewrite H. reflexivity. Qed.

(** One iteration of the loop. *)
Lemma crawl_loop_step fuel condition_filter url page_count item_count w :
  url <> "" ->
  loop (S fuel) condition_filter (Some url) page_count item_count w =
  match page url condition_filter
          (add_log [(INFO, ProcessingPageNumber (page_count + 1))] w) with
  | (Ok next_url, w1) =>
      loop fuel condition_filter next_url (page_count + 1)
        (count_json (files w1))
        (add_log [(INFO, ExtractedNewItems (count_json (files w1) - item_count)
                           (page_count + 1))] w1)
  | (Raise e, w1) => (Raise e, w1)
  end.
Proof.
  intros H. apply truthy_true in H. simpl crawl_loop.
  unfold Py.truthy_opt. rewrite H. unfold bind at 1. unfold emit at 1.
  unfold bind at 1. simpl default.
  destruct (page url condition_filter _) as [[next_url|e] w1];
    reflexivity.
Qed.

End CrawlLoop.

Section CrawlRuns.

Variable store_name : string.
Variable requests_get : string -> Fetched.
Variable urljoin : string -> string -> string.

Local Abbreviation page := (process_page store_name requests_get urljoin).
Local Abbreviation loop := (crawl_loop store_name requests_get urljoin).

(** The iteration whose fetch fails is the last one. *)
Lemma crawl_loop_failed fuel condition_filter url message page_count item_count w :
  url <> "" ->
  requests_get url = RequestException message ->
  loop (S fuel) condition_filter (Some url) page_count item_count w =
  (Ok (Some (page_count + 1, count_json (files w))),
   mkWorld (files w)
     (log w ++ [(INFO, ProcessingPageNumber (page_count + 1));
                (INFO, ProcessingPage url);
                (ERROR, FetchFailed url message);
                (INFO, ExtractedNewItems (count_json (files w) - item_count)
                         (page_count + 1));
                (INFO, CrawlCompleted (page_count + 1) (count_json (files w)))])
     (requested w ++ [url])).
Proof.
  intros Hurl Hget. rewrite crawl_loop_step by assumption.
  rewrite (process_page_failed _ _ _ _ _ message) by assumption.
  rewrite crawl_loop_done by reflexivity.
  unfold add_log; simpl. rewrite <- !app_assoc. reflexivity.
Qed.

Hypothesis urljoin_nonempty :
  forall href, urljoin (base_url store_name) href <> "".

Lemma next_url_nonempty soup next_url :
  next_url_of store_name urljoin soup = Some next_url -> next_url <> "".
Proof.
  unfold next_url_of. destruct (pagination_next soup) as [e|]; [|discriminate].
  destruct (attrs e !! "href") as [href|]; [|discriminate].
  simpl. intros [= <-]. apply urljoin_nonempty.
Qed.

Lemma next_url_None soup :
  pagination_next soup = None -> next_url_of store_name urljoin soup = None.
Proof. unfold next_url_of. now intros ->. Qed.

(** The loop on a finite chain: one iteration per page. *)
Lemma crawl_loop_chain condition_filter url pages :
  chain store_name requests_get urljoin url pages ->
  forall fuel page_count item_count w,
    url <> "" ->
    (length pages <= fuel)%nat ->
    exists w',
      loop fuel condition_filter (Some url) page_count item_count w =
      (Ok (Some (page_count + len pages,
                 count_json (store_pages condition_filter pages (files w)))), w')
      /\ files w' = store_pages condition_filter pages (files w)
      /\ requested w' =
         requested w ++ chain_urls store_name urljoin url pages.
Proof.
  induction 1 as [url soup Hget Hwf Hlast | url soup next_url pages Hget Hwf Hnext Hchain IH];
    intros fuel page_count item_count w Hurl Hfuel.
  - destruct fuel as [|fuel]; [simpl in Hfuel; lia|].
    rewrite crawl_loop_step by assumption.
    rewrite (process_page_fetched _ _ _ _ _ soup) by assumption.
    rewrite next_url_None by assumption.
    rewrite crawl_loop_done by reflexivity.
    eexists. split; [|split]; simpl; reflexivity.
  - destruct fuel as [|fuel]; [simpl in Hfuel; lia|].
    rewrite crawl_loop_step by assumption.
    rewrite (process_page_fetched _ _ _ _ _ soup) by assumption.
    rewrite Hnext.
    edestruct (IH fuel) as (w' & -> & Hfiles & Hreq).
    + eapply next_url_nonempty; eauto.
    + simpl in Hfuel. lia.
    + exists w'. split; [|split].
      * replace (len (soup :: pages)) with (1 + len pages)
          by (unfold len; simpl length; lia).
        now rewrite !Z.add_assoc.
      * rewrite Hfiles. reflexivity.
      * rewrite Hreq. simpl. rewrite Hnext. simpl. now rewrite <- app_assoc.
Qed.

(** With fewer iterations than pages the loop has not ended yet. *)
Lemma crawl_loop_chain_short condition_filter url pages :
  chain store_name requests_get urljoin url pages ->
  forall fuel page_count item_count w,
    url <> "" ->
    (fuel < length pages)%nat ->
    fst (loop fuel condition_filter (Some url) page_count item_count w) = Ok None.
Proof.
  induction 1 as [url soup Hget Hwf Hlast | url soup next_url pages Hget Hwf Hnext Hchain IH];
    intros fuel page_count item_count w Hurl Hfuel.
  - destruct fuel as [|fuel]; [|simpl in Hfuel; lia].
    rewrite crawl_loop_out_of_fuel; [reflexivity | now apply truthy_true].
  - destruct fuel as [|fuel].
    + rewrite crawl_loop_out_of_fuel; [reflexivity | now apply truthy_true].
    + rewrite crawl_loop_step by assumption.
      rewrite (process_page_fetched _ _ _ _ _ soup) by assumption.
      rewrite Hnext. apply IH.
      * eapply next_url_nonempty; eauto.
      * simpl in Hfuel. lia.
Qed.

(** The loop on a chain cut by a failed fetch: one iteration per page
    fetched, and one for the failure. *)
Lemma crawl_loop_broken condition_filter url pages bad :
  broken_chain store_name requests_get urljoin url pages bad ->
  forall fuel page_count item_count w,
    url <> "" ->
    (length pages < fuel)%nat ->
    exists w',
      loop fuel condition_filter (Some url) page_count item_count w =
      (Ok (Some (page_count + len pages + 1,
                 count_json (store_pages condition_filter pages (files w)))), w')
      /\ files w' = store_pages condition_filter pages (files w)
      /\ requested w' =
         requested w ++ chain_urls store_name urljoin url pages ++ [bad].
Proof.
  induction 1 as [url message Hget | url soup next_url pages bad Hget Hwf Hnext Hchain IH];
    intros fuel page_count item_count w Hurl Hfuel.
  - destruct fuel as [|fuel]; [simpl in Hfuel; lia|].
    rewrite (crawl_loop_failed _ _ _ message) by assumption.
    replace (page_count + len [] + 1) with (page_count + 1)
      by (unfold len; simpl length; lia).
    eexists. split; [|split]; simpl; reflexivity.
  - destruct fuel as [|fuel]; [simpl in Hfuel; lia|].
    rewrite crawl_loop_step by assumption.
    rewrite (process_page_fetched _ _ _ _ _ soup) by assumption.
    rewrite Hnext.
    edestruct (IH fuel) as (w' & -> & Hfiles & Hreq).
    + eapply next_url_nonempty; eauto.
    + simpl in Hfuel. lia.
    + exists w'. split; [|split].
      * replace (len (soup :: pages)) with (1 + len pages)
          by (unfold len; simpl length; lia).
        now rewrite !Z.add_assoc.
      * rewrite Hfiles. reflexivity.
      * rewrite Hreq. simpl. rewrite Hnext. simpl. now rewrite <- app_assoc.
Qed.

End CrawlRuns.

Section Accounting.

Variable store_name : string.
Variable requests_get : string -> Fetched.
Variable urljoin : string -> string -> string.

Local Abbreviation page := (process_page store_name requests_get urljoin).
Local Abbreviation loop := (crawl_loop store_name requests_get urljoin).

Lemma base_url_nonempty : base_url store_name <> "".
Proof. unfold base_url. simpl. discriminate. Qed.

Lemma crawl_eq fuel condition_filter w :
  crawl store_name requests_get urljoin fuel condition_filter w =
  loop fuel condition_filter (Some (base_url store_name)) 0 0
    (add_log [(INFO, StartingCrawl condition_filter)] w).
Proof. reflexivity. Qed.

(** What a call of [process_page] that returns does to the state: the
    directory only grows and no [ExtractedNewItems] record is logged. *)
Lemma process_page_effect url condition_filter w r w1 :
  page url condition_filter w = (Ok r, w1) ->
  dom (files w) ⊆ dom (files w1)
  /\ deltas (log w1) = deltas (log w).
Proof.
  intros H. destruct (process_page_Ok _ _ _ _ _ _ _ _ H)
    as [[message Hget] | (soup & Hget & Hwf)].
  - rewrite (process_page_failed _ _ _ _ _ message) in H by assumption.
    injection H as _ <-. simpl. rewrite deltas_app. simpl.
    now rewrite app_nil_r.
  - rewrite (process_page_fetched _ _ _ _ _ soup) in H by assumption.
    injection H as _ <-. simpl. split; [apply store_mono|].
    now rewrite deltas_app, deltas_page_events, app_nil_r.
Qed.

(** The accounting of the loop: when it ends after at least one
    iteration, the item count it returns is the number of [.json] files
    of the directory at that moment, and the logged [new_items] add up to
    the difference with the count the loop started from. *)
Lemma crawl_loop_accounting fuel :
  forall condition_filter url page_count item_count w page_count' item_count' w',
    loop fuel condition_filter (Some url) page_count item_count w =
      (Ok (Some (page_count', item_count')), w') ->
    url <> "" ->
    item_count' = count_json (files w')
    /\ sum (deltas (log w')) = sum (deltas (log w)) + (item_count' - item_count)
    /\ dom (files w) ⊆ dom (files w')
    /\ page_count < page_count'.
Proof.
  induction fuel as [|fuel IH];
    intros condition_filter url page_count item_count w page_count' item_count' w' H Hurl.
  - rewrite crawl_loop_out_of_fuel in H by now apply truthy_true.
    discriminate.
  - rewrite crawl_loop_step in H by assumption.
    destruct (page url condition_filter _) as [[next_url|e] w1] eqn:Hpage;
      [|discriminate].
    apply process_page_effect in Hpage as [Hdom Hdeltas].
    simpl in Hdom, Hdeltas. rewrite deltas_app in Hdeltas. simpl in Hdeltas.
    rewrite app_nil_r in Hdeltas.
    destruct (Py.truthy_opt next_url) eqn:Hnext.
    + destruct next_url as [next_url|]; [|discriminate].
      apply IH in H as (Hcount & Hsum & Hdom' & Hpages);
        [|now apply truthy_true].
      simpl in Hsum, Hdom'. rewrite deltas_app, sum_app, Hdeltas in Hsum.
      simpl in Hsum.
      repeat split; [assumption | lia | set_solver | lia].
    + rewrite crawl_loop_done in H by assumption.
      injection H as <- <- <-. simpl.
      rewrite !deltas_app, !sum_app, Hdeltas. simpl.
      repeat split; [lia | assumption | lia].
Qed.

End Accounting.

(** ** A chain cut by a failure and the chain that ends where it is cut *)

Lemma broken_chain_bad store_name requests_get urljoin url pages bad :
  broken_chain store_name requests_get urljoin url pages bad ->
  exists message, requests_get bad = RequestException message.
Proof. induction 1; eauto. Qed.

Lemma well_formed_empty : well_formed (mkSoup [] None).
Proof. split; [constructor | discriminate]. Qed.

Lemma broken_chain_patched store_name requests_get urljoin url pages bad :
  broken_chain store_name requests_get urljoin url pages bad ->
  chain store_name (patched requests_get bad) urljoin url (pages ++ [mkSoup [] None]).
Proof.
  intros H. destruct (broken_chain_bad _ _ _ _ _ _ H) as [message Hbad].
  induction H as [url message' Hget | url soup next_url pages bad Hget Hwf Hnext Hchain IH].
  - apply chain_last; [|apply well_formed_empty|reflexivity].
    unfold patched. now rewrite String.eqb_refl.
  - simpl. eapply chain_next; eauto.
    unfold patched. destruct (String.eqb_spec url bad) as [->|]; [congruence|].
    assumption.
Qed.

Lemma store_pages_app condition_filter pages pages' fs :
  store_pages condition_filter (pages ++ pages') fs =
  store_pages condition_filter pages' (store_pages condition_filter pages fs).
Proof.
  revert fs. induction pages as [|soup pages IH]; intros fs; simpl;
    [reflexivity | apply IH].
Qed.

(** ** The result of [collect_tasks] does not depend on the state *)

Lemma collect_tasks_logs_only items condition_filter :
  logs_only (collect_tasks items condition_filter).
Proof.
  induction items as [|item items IH].
  - apply (logs_only_intro _ (Ok []) []). intros w. now rewrite add_log_nil.
  - destruct (result_of (parse_item item condition_filter)) as [r|e] eqn:Er.
    + destruct (task_of condition_filter item) as [t|] eqn:Et.
      * destruct (result_of (collect_tasks items condition_filter)) as [ts|e] eqn:Ec.
        { eapply (logs_only_intro _ (Ok (t :: ts))). intros w.
          rewrite collect_tasks_cons, Er, Et. cbv zeta. rewrite IH, Ec.
          now rewrite add_log_add_log. }
        { eapply (logs_only_intro _ (Raise e)). intros w.
          rewrite collect_tasks_cons, Er, Et. cbv zeta. rewrite IH, Ec.
          now rewrite add_log_add_log. }
      * eapply logs_only_intro. intros w.
        rewrite collect_tasks_cons, Er, Et. cbv zeta. rewrite IH.
        now rewrite add_log_add_log.
    + eapply logs_only_intro. intros w.
      rewrite collect_tasks_cons, Er. reflexivity.
Qed.

Lemma result_of_collect_tasks_cons item items condition_filter :
  result_of (collect_tasks (item :: items) condition_filter) =
  match result_of (parse_item item condition_filter) with
  | Raise e => Raise e
  | Ok _ =>
      match task_of condition_filter item with
      | Some t =>
          match result_of (collect_tasks items condition_filter) with
          | Ok tasks => Ok (t :: tasks)
          | Raise e => Raise e
          end
      | None => result_of (collect_tasks items condition_filter)
      end
  end.
Proof.
  unfold result_of at 1. rewrite collect_tasks_cons.
  destruct (result_of (parse_item item condition_filter)); [|reflexivity].
  cbv zeta. rewrite (collect_tasks_logs_only items condition_filter).
  destruct (task_of condition_filter item); [|reflexivity].
  destruct (result_of (collect_tasks items condition_filter)); reflexivity.
Qed.

(** A node for which [parse_item] returns [None] leaves the tasks of its
    page as they are without it. *)
Lemma collect_tasks_dropped item condition_filter before after w :
  result_of (parse_item item condition_filter) = Ok None ->
  fst (collect_tasks (before ++ item :: after) condition_filter w) =
  fst (collect_tasks (before ++ after) condition_filter w).
Proof.
  intros Hnone. rewrite !(collect_tasks_logs_only _ condition_filter w).
  cbn [fst].
  induction before as [|b before IH]; cbn [app].
  - rewrite result_of_collect_tasks_cons, Hnone. unfold task_of.
    now rewrite Hnone.
  - rewrite !result_of_collect_tasks_cons, IH. reflexivity.
Qed.

Lemma result_of_fst {A} (m : M A) w : logs_only m -> fst (m w) = result_of m.
Proof. intros H. now rewrite H. Qed.

(** ** The filter *)

Lemma filtered_out_false condition_filter condition :
  filtered_out condition_filter condition = false
  <-> passes_filter condition_filter condition.
Proof.
  unfold filtered_out, passes_filter, ci_eq.
  destruct condition_filter as [f|]; [|intuition].
  destruct (Py.truthy f) eqn:Ht; simpl.
  - rewrite negb_false_iff, String.eqb_eq. apply truthy_true in Ht. split.
    + intros H. right; right. eauto.
    + intros [H | [H | (f' & H & H')]]; [discriminate | congruence | congruence].
  - apply truthy_false in Ht. subst f. intuition.
Qed.

(** ** Nodes without an item identifier *)

Lemma parse_item_without_id item e url condition_filter :
  link_elem item = Some e -> attrs e !! "href" = Some url ->
  extract_item_id url = None ->
  result_of (parse_item item condition_filter) = Ok None.
Proof.
  intros Hl Ha Hid. unfold result_of.
  destruct (String.eqb_spec url "") as [->|Hne].
  - erewrite parse_item_empty_href by eauto. reflexivity.
  - destruct (filtered_out condition_filter (condition_of item)) eqn:Hf.
    + erewrite parse_item_filtered by eauto. reflexivity.
    + erewrite parse_item_no_id by eauto. reflexivity.
Qed.

(** * The claims *)

(** ** C2: the item identifier *)

(** The segment is the run of digits, whatever follows it; an item path
    with a title before the number has no segment right after the marker;
    of two segments the leftmost is returned. *)
Example extract_item_id_letters_after :
  extract_item_id "https://www.ebay.com/itm/123abc" = Some "123".
Proof. reflexivity. Qed.

Example extract_item_id_title_before :
  extract_item_id "https://www.ebay.com/itm/Dell-Latitude/123456" = None.
Proof. reflexivity. Qed.

Example extract_item_id_two_segments :
  extract_item_id "https://www.ebay.com/itm/12/itm/34" = Some "12".
Proof. reflexivity. Qed.

(** C2 (identifier determinism).  For every URL: when a numeric segment
    immediately follows the marker [/itm/], [extract_item_id] returns that
    digit segment -- the only such segment of the URL, or of several the
    leftmost one, the one with no match before its marker; when the URL has
    no such segment, [extract_item_id] returns [None], and a node whose
    [product_url] is that URL is dropped and not persisted: [parse_item]
    returns [None] for it, no write task is made for it, and the tasks of a
    page that contains it are those of the page without it. *)
Theorem extract_item_id_determinism (url : string) :
  (forall pre ds rest,
      segment_at url pre ds rest -> extract_item_id pre = None ->
      extract_item_id url = Some ds)
  /\ (forall pre ds rest,
        segment_at url pre ds rest ->
        (forall pre' ds' rest', segment_at url pre' ds' rest' -> pre' = pre) ->
        extract_item_id url = Some ds)
  /\ (has_segment url ->
      exists pre ds rest, segment_at url pre ds rest /\ extract_item_id url = Some ds)
  /\ (~ has_segment url ->
      extract_item_id url = None
      /\ forall item e condition_filter,
           link_elem item = Some e -> attrs e !! "href" = Some url ->
           (forall w, fst (parse_item item condition_filter w) = Ok None)
           /\ task_of condition_filter item = None
           /\ forall before after w,
                fst (collect_tasks (before ++ item :: after) condition_filter w) =
                fst (collect_tasks (before ++ after) condition_filter w)).
Proof.
  unfold extract_item_id. split; [|split; [|split]].
  - intros pre ds rest Hseg Hpre. eapply search_itm_first; eauto.
  - intros pre ds rest Hseg Honly.
    destruct (Re.search_itm url) as [ds'|] eqn:E.
    + destruct (search_itm_Some _ _ E) as (pre' & rest' & Hseg' & _).
      rewrite (Honly _ _ _ Hseg') in Hseg'.
      f_equal. eapply segment_at_inj; eauto.
    + apply search_itm_None in E. exfalso. apply E. now exists pre, ds, rest.
  - intros Hhas. destruct (Re.search_itm url) as [ds|] eqn:E.
    + destruct (search_itm_Some _ _ E) as (pre & rest & Hseg & _). eauto.
    + now apply search_itm_None in E.
  - intros Hnone.
    assert (Re.search_itm url = None) as E.
    { destruct (Re.search_itm url) as [ds|] eqn:E; [|reflexivity].
      destruct (search_itm_Some _ _ E) as (pre & rest & Hseg & _).
      exfalso. apply Hnone. now exists pre, ds, rest. }
    split; [exact E|]. intros item e condition_filter Hl Ha.
    pose proof (parse_item_without_id item e url condition_filter Hl Ha E) as Hr.
    split; [|split].
    + intros w. rewrite result_of_fst by apply parse_item_logs_only. exact Hr.
    + unfold task_of. now rewrite Hr.
    + intros before after w. now apply collect_tasks_dropped.
Qed.

Lemma extract_item_id_determinism_witness :
  extract_item_id "https://www.ebay.com/itm/123456?hash=item1" = Some "123456"
  /\ extract_item_id "https://www.ebay.com/usr/garlandcomputer" = None.
Proof.
  split.
  - apply (proj1 (extract_item_id_determinism _)
             "https://www.ebay.com" "123456" "?hash=item1").
    + repeat split; discriminate.
    + reflexivity.
  - apply (proj2 (proj2 (proj2 (extract_item_id_determinism _)))).
    apply search_itm_None. reflexivity.
Defined.

(** ** C1: the condition filter *)

(** The statement of the specification fails for the empty filter: the
    guard [if condition_filter and ...] treats it as no filter, so a "Used"
    listing is returned although the filter is set and differs from its
    condition. *)
Lemma filter_claim_counterexample :
  valid_listing sample_used "https://www.ebay.com/itm/1002" "1002"
  /\ ~ filter_claim sample_used (Some "").
Proof.
  split.
  - split; [|split]; [|discriminate|reflexivity].
    eexists. split; reflexivity.
  - intros [Hto _].
    destruct Hto as [H | (f & [= <-] & H)].
    + eexists. intros w. reflexivity.
    + discriminate.
    + vm_compute in H. discriminate.
Qed.

(** C1 (filter correctness), amended.  For every listing node with a
    resolvable [product_url] and a derivable [item_id], and every optional
    filter: the record parsed from the node is returned by [parse_item], and
    a write task is made for it, if and only if the filter is unset or
    empty, or the condition of the record equals the filter, case apart.
    Otherwise [parse_item] returns [None] and logs one record at the debug
    level. *)
Theorem filter_correctness (item : Item) (condition_filter : option string)
    (url item_id : string) :
  valid_listing item url item_id ->
  let data := mkItemData (title_of item) (condition_of item) (price_of item) url in
  (appears item condition_filter
   <-> passes_filter condition_filter (condition_of item))
  /\ (task_of condition_filter item = Some (item_id, data)
      <-> passes_filter condition_filter (condition_of item))
  /\ (passes_filter condition_filter (condition_of item) ->
      forall w, fst (parse_item item condition_filter w) = Ok (Some data))
  /\ (~ passes_filter condition_filter (condition_of item) ->
      task_of condition_filter item = None
      /\ forall w,
           parse_item item condition_filter w =
           (Ok None,
            add_log [(DEBUG, SkippingItem (condition_of item)
                               (default "" condition_filter))] w)).
Proof.
  intros ((e & Hl & Ha) & Hne & Hid) data.
  assert (Hyes : passes_filter condition_filter (condition_of item) ->
                 forall w, parse_item item condition_filter w =
                           (Ok (Some data),
                            add_log [(DEBUG, ParsedItem (title_of item)
                                               (condition_of item) (price_of item))] w)).
  { intros Hp w. apply filtered_out_false in Hp.
    eapply parse_item_accepted; eauto. }
  assert (Hno : ~ passes_filter condition_filter (condition_of item) ->
                forall w, parse_item item condition_filter w =
                          (Ok None,
                           add_log [(DEBUG, SkippingItem (condition_of item)
                                              (default "" condition_filter))] w)).
  { intros Hp w. eapply parse_item_filtered; eauto.
    destruct (filtered_out condition_filter (condition_of item)) eqn:Hf;
      [reflexivity|]. now apply filtered_out_false in Hf. }
  assert (Hdec : passes_filter condition_filter (condition_of item)
                 \/ ~ passes_filter condition_filter (condition_of item)).
  { destruct (filtered_out condition_filter (condition_of item)) eqn:Hf.
    - right. intros Hp. apply filtered_out_false in Hp. congruence.
    - left. now apply filtered_out_false. }
  split; [|split; [|split]].
  - split.
    + intros [d Hd]. destruct Hdec as [Hp|Hp]; [exact Hp|].
      specialize (Hd empty_world). rewrite (Hno Hp) in Hd. discriminate.
    + intros Hp. exists data. intros w. now rewrite (Hyes Hp).
  - unfold task_of, result_of. split.
    + intros Ht. destruct Hdec as [Hp|Hp]; [exact Hp|].
      rewrite (Hno Hp) in Ht. discriminate.
    + intros Hp. rewrite (Hyes Hp). simpl. rewrite Hid.
      apply search_itm_nonempty, truthy_true in Hid. now rewrite Hid.
  - intros Hp w. now rewrite (Hyes Hp).
  - intros Hp. split; [|now apply Hno].
    unfold task_of, result_of. now rewrite (Hno Hp).
Qed.

Lemma filter_correctness_witness :
  appears sample_used (Some "USED")
  /\ appears sample_used (Some "")
  /\ task_of (Some "New") sample_used = None.
Proof.
  assert (valid_listing sample_used "https://www.ebay.com/itm/1002" "1002") as Hv.
  { split; [|split]; [|discriminate|reflexivity].
    eexists. split; reflexivity. }
  split; [|split].
  - apply (proj1 (filter_correctness sample_used (Some "USED") _ _ Hv)).
    right; right. exists "USED". split; reflexivity.
  - apply (proj1 (filter_correctness sample_used (Some "") _ _ Hv)).
    right; left. reflexivity.
  - apply (proj2 (proj2 (proj2 (filter_correctness sample_used (Some "New") _ _ Hv)))).
    intros [H | [H | (f & [= <-] & H)]]; discriminate.
Defined.

(** ** C3: the price *)

Lemma count_dot_keep s :
  Py.count is_dot (Py.keep Re.digit_or_dot s) = Py.count is_dot s.
Proof.
  induction s as [|c s IH]; [reflexivity|].
  cbn [Py.keep Py.count]. unfold Re.digit_or_dot at 1.
  destruct (Py.isdecimal c) eqn:D; destruct (is_dot c) eqn:E;
    unfold is_dot in E; rewrite E; cbn [orb Py.count];
    fold (is_dot c); unfold is_dot at 1; rewrite ?E; auto.
Qed.

(** The statement of the specification fails on a price text with more
    than one full stop: every full stop is kept. *)
Lemma price_claim_counterexample :
  price_of sample_two_dots = "12.50."
  /\ ~ plain_number (price_of sample_two_dots).
Proof.
  split; [reflexivity|]. intros [_ H]. vm_compute in H. lia.
Qed.

(** C3 (price normalization), amended.  The price is the raw text with every
    character except the digits and ['.'] deleted, taken from the text
    before the first [' to '] when that separator occurs and from the whole
    text otherwise; the result holds digits and full stops only, as many
    full stops as the kept text has.  ["$1,234.56 to $1,999.00"] gives
    ["1234.56"], ["$49.99"] gives ["49.99"], and a missing price element
    gives ["0.00"]. *)
Theorem price_normalization (raw : string) :
  Py.all Re.digit_or_dot (normalize_price raw) = true
  /\ Py.count is_dot (normalize_price raw) =
     Py.count is_dot (Py.split_first " to " raw)
  /\ (forall lo hi, first_occurrence " to " raw lo hi ->
        normalize_price raw = Py.keep Re.digit_or_dot lo)
  /\ (~ contains " to " raw -> normalize_price raw = Py.keep Re.digit_or_dot raw)
  /\ normalize_price "$1,234.56 to $1,999.00" = "1234.56"
  /\ normalize_price "$49.99" = "49.99"
  /\ (forall item, price_elem item = None -> price_of item = "0.00")
  /\ (forall item e, price_elem item = Some e ->
        price_of item = normalize_price (Py.strip (text e))).
Proof.
  unfold normalize_price, Re.sub_non_price. repeat split.
  - apply all_keep.
  - apply count_dot_keep.
  - intros lo hi H. now rewrite (split_first_leftmost _ _ _ _ H).
  - intros H. now rewrite split_first_absent.
  - intros item H. unfold price_of. now rewrite H.
  - intros item e H. unfold price_of. now rewrite H.
Qed.

Lemma price_normalization_witness :
  normalize_price "$5.00 to to $9.00" = "5.00"
  /\ normalize_price "12,5" = "125"
  /\ price_of sample_bare = "0.00".
Proof.
  split; [|split].
  - apply (proj1 (proj2 (proj2 (price_normalization "$5.00 to to $9.00")))
             "$5.00" "to $9.00").
    split; [reflexivity|]. intros lo' hi' E.
    do 5 (destruct lo' as [|? lo']; [discriminate|]). simpl. lia.
  - apply (proj1 (proj2 (proj2 (proj2 (price_normalization "12,5"))))).
    intros (a & b & E).
    do 4 (destruct a as [|? a]; [discriminate|]).
    destruct a; discriminate.
  - apply (proj1 (proj2 (proj2 (proj2 (proj2 (proj2 (proj2
             (price_normalization "")))))))).
    reflexivity.
Defined.

(** ** C9: the defaults of the optional fields *)

(** C9 (defaults).  For every listing node and every filter: a missing
    title element gives the title ["No title"] and a missing condition
    element gives the condition ["Unknown"], in the local values and in
    every record [parse_item] returns; the absence of an optional element
    never makes [parse_item] raise: it raises exactly when the link anchor
    is there without an [href], whatever the optional elements are; and a
    valid node with no optional element at all is returned with the three
    defaults. *)
Theorem optional_field_defaults (item : Item) (condition_filter : option string) :
  (title_elem item = None -> title_of item = "No title")
  /\ (condition_elem item = None -> condition_of item = "Unknown")
  /\ (forall w data,
        fst (parse_item item condition_filter w) = Ok (Some data) ->
        (title_elem item = None -> title data = "No title")
        /\ (condition_elem item = None -> condition data = "Unknown"))
  /\ ((exists w e, fst (parse_item item condition_filter w) = Raise e)
      <-> ~ readable item)
  /\ (forall url item_id,
        valid_listing item url item_id ->
        title_elem item = None -> price_elem item = None ->
        condition_elem item = None ->
        filtered_out condition_filter "Unknown" = false ->
        forall w, fst (parse_item item condition_filter w) =
                  Ok (Some (mkItemData "No title" "Unknown" "0.00" url))).
Proof.
  assert (Ht : title_elem item = None -> title_of item = "No title")
    by (unfold title_of; now intros ->).
  assert (Hc : condition_elem item = None -> condition_of item = "Unknown")
    by (unfold condition_of; now intros ->).
  split; [exact Ht | split; [exact Hc | split; [|split]]].
  - intros w data H.
    destruct (link_elem item) as [e|] eqn:Hl;
      [|rewrite parse_item_no_link in H by assumption; discriminate].
    destruct (attrs e !! "href") as [url|] eqn:Ha;
      [|erewrite parse_item_no_href in H by eauto; discriminate].
    destruct (String.eqb_spec url "") as [->|Hne];
      [erewrite parse_item_empty_href in H by eauto; discriminate|].
    destruct (filtered_out condition_filter (condition_of item)) eqn:Hf;
      [erewrite parse_item_filtered in H by eauto; discriminate|].
    destruct (extract_item_id url) as [item_id|] eqn:Hid;
      [|erewrite parse_item_no_id in H by eauto; discriminate].
    erewrite parse_item_accepted in H by eauto.
    injection H as <-. simpl. auto.
  - split.
    + intros (w & e & H) Hr.
      destruct (readable_result item condition_filter Hr) as [r Hres].
      rewrite result_of_fst in H by apply parse_item_logs_only. congruence.
    + intros Hnr. exists empty_world.
      destruct (link_elem item) as [e|] eqn:Hl.
      * destruct (attrs e !! "href") as [url|] eqn:Ha.
        { exfalso. apply Hnr. intros e' He'.
          assert (e' = e) as -> by congruence. eauto. }
        exists (KeyError "href"). erewrite parse_item_no_href by eauto.
        reflexivity.
      * exfalso. apply Hnr. intros e' He'. congruence.
  - intros url item_id ((e & Hl & Ha) & Hne & Hid) Htitle Hprice Hcond Hf w.
    rewrite <- (Hc Hcond) in Hf.
    erewrite parse_item_accepted by eauto.
    rewrite (Ht Htitle), (Hc Hcond). unfold price_of. rewrite Hprice.
    reflexivity.
Qed.

Lemma optional_field_defaults_witness :
  fst (parse_item sample_bare None world_after_earlier_run) =
  Ok (Some (mkItemData "No title" "Unknown" "0.00" "https://www.ebay.com/itm/1003")).
Proof.
  apply (proj2 (proj2 (proj2 (proj2 (optional_field_defaults sample_bare None))))
           "https://www.ebay.com/itm/1003" "1003"); try reflexivity.
  split; [|split]; [|discriminate|reflexivity].
  eexists. split; reflexivity.
Defined.

(** ** C8: writing the same item twice *)

Lemma filter_eqb_once (x : string) (l : list string) :
  NoDup l -> x ∈ l -> length (List.filter (String.eqb x) l) = 1%nat.
Proof.
  induction 1 as [|y l Hnotin Hnd IH]; intros Hin.
  - inversion Hin.
  - simpl. destruct (String.eqb_spec x y) as [<-|Hne].
    + simpl. f_equal.
      assert (forall l', x ∉ l' -> List.filter (String.eqb x) l' = []) as Hnone.
      { induction l' as [|z l' IH']; intros Hz; [reflexivity|]. simpl.
        destruct (String.eqb_spec x z) as [->|_].
        - exfalso. apply Hz. left.
        - apply IH'. intros ?. apply Hz. now right. }
      now rewrite Hnone.
    + apply IH. inversion Hin; subst; [congruence | assumption].
Qed.

(** C8 (idempotent persistence).  Two calls of [write_json_file] for the
    same [item_id], with any two records, leave exactly one entry
    [<item_id>.json] in the directory; its content is the dump of the second
    record; the second call adds no entry and changes no other file. *)
Theorem write_json_file_twice (item_id : string) (first second : ItemData) (w : World) :
  let w1 := snd (write_json_file item_id first w) in
  let w2 := snd (write_json_file item_id second w1) in
  let filename := item_id +:+ ".json" in
  files w2 !! filename = Some (Json.dumps (to_dict second))
  /\ length (List.filter (String.eqb filename) (listdir (files w2))) = 1%nat
  /\ listdir (files w2) = listdir (files w1)
  /\ count_json (files w2) = count_json (files w1)
  /\ files w2 = files (snd (write_json_file item_id second w))
  /\ (forall other, other <> filename -> files w2 !! other = files w !! other)
  /\ fst (write_json_file item_id first w) = Ok tt
  /\ fst (write_json_file item_id second w1) = Ok tt.
Proof.
  cbv zeta. unfold write_json_file, bind, write_file, emit. simpl.
  split; [apply lookup_insert_eq|].
  split.
  { unfold listdir. apply filter_eqb_once.
    - apply (NoDup_elements (C := gset string)).
    - apply (elem_of_elements (C := gset string)), elem_of_dom.
      rewrite lookup_insert_eq. eauto. }
  split.
  { unfold listdir. f_equal. rewrite !dom_insert_L. set_solver. }
  split.
  { apply count_json_insert_old. rewrite lookup_insert_eq. eauto. }
  split; [apply insert_insert_eq|].
  split; [|split; reflexivity].
  intros other Hne. rewrite !lookup_insert_ne by congruence. reflexivity.
Qed.

Lemma write_json_file_twice_witness :
  let w1 := snd (write_json_file "900" (mkItemData "a" "New" "1.00" "u") world_after_earlier_run) in
  let w2 := snd (write_json_file "900" (mkItemData "b" "Used" "2.00" "v") w1) in
  files w2 !! "901.json" = Some "{}".
Proof.
  intros w1 w2. subst w1 w2.
  rewrite (proj1 (proj2 (proj2 (proj2 (proj2 (proj2
             (write_json_file_twice "900" (mkItemData "a" "New" "1.00" "u")
                (mkItemData "b" "Used" "2.00" "v") world_after_earlier_run))))))
             "901.json"); [reflexivity | discriminate].
Defined.

(** ** C6: nodes without a product URL *)

Lemma lacks_url_parse item condition_filter w :
  lacks_url item = true -> parse_item item condition_filter w = (Ok None, w).
Proof.
  unfold lacks_url. intros H.
  destruct (link_elem item) as [e|] eqn:Hl; [|now apply parse_item_no_link].
  destruct (attrs e !! "href") as [url|] eqn:Ha; [|discriminate].
  apply negb_true_iff, truthy_false in H. subst url.
  eapply parse_item_empty_href; eauto.
Qed.

Lemma accepted_parse item condition_filter :
  accepted condition_filter item ->
  exists item_id data,
    task_of condition_filter item = Some (item_id, data)
    /\ events_of (parse_item item condition_filter) =
       [(DEBUG, ParsedItem (title data) (condition data) (price data))]
    /\ lacks_url item = false
    /\ readable item.
Proof.
  intros (url & item_id & ((e & Hl & Ha) & Hne & Hid) & Hf).
  exists item_id, (mkItemData (title_of item) (condition_of item) (price_of item) url).
  unfold task_of, result_of, events_of, lacks_url, readable.
  erewrite parse_item_accepted by eauto. simpl. rewrite Hid, Hl, Ha.
  pose proof Hid as Hid'. apply search_itm_nonempty, truthy_true in Hid'.
  apply truthy_true in Hne. rewrite Hid', Hne.
  repeat split. intros e' [= <-]. eauto.
Qed.

(** A page whose nodes either lack a URL or are accepted: one task per
    accepted node, and no warning. *)
Lemma lacking_or_accepted condition_filter items :
  Forall (fun item => lacks_url item = true \/ accepted condition_filter item) items ->
  Forall readable items
  /\ (length (tasks_of condition_filter items)
      + length (List.filter lacks_url items) = length items)%nat
  /\ count_level WARNING (parse_events condition_filter items) = 0%nat.
Proof.
  induction 1 as [|item items Hitem _ (IHr & IHlen & IHw)].
  - repeat split. constructor.
  - unfold tasks_of, parse_events in *. cbn [omap list_omap flat_map List.filter].
    rewrite count_level_app, IHw.
    destruct Hitem as [Hlack | Hacc].
    + assert (task_of condition_filter item = None) as ->
        by (unfold task_of, result_of; now rewrite lacks_url_parse).
      assert (events_of (parse_item item condition_filter) = []) as ->
        by (unfold events_of; now rewrite lacks_url_parse).
      rewrite Hlack. simpl. repeat split; [|lia].
      constructor; [|assumption]. intros e Hl. unfold lacks_url in Hlack.
      rewrite Hl in Hlack. destruct (attrs e !! "href"); [eauto | discriminate].
    + destruct (accepted_parse _ _ Hacc) as (item_id & data & -> & -> & -> & Hr).
      simpl. repeat split; [now constructor | lia].
Qed.

Lemma count_level_saving_events tasks :
  count_level WARNING (saving_events tasks) = 0%nat.
Proof.
  assert (forall l, count_level WARNING (saved_events l) = 0%nat) as H
    by (induction l as [|t' l IH]; [reflexivity | exact IH]).
  unfold saving_events. destruct tasks as [|t tasks]; [reflexivity|].
  apply (H (t :: tasks)).
Qed.

(** The statement of the specification fails on its own example: the two
    nodes without a URL are dropped without any record in the log, so the
    page yields its three records and no warning at all. *)
Lemma partial_page_counterexample :
  lacks_url sample_no_link = true
  /\ ~ discard_logged sample_no_link None
  /\ length five_nodes = 5%nat
  /\ length (List.filter lacks_url five_nodes) = 2%nat
  /\ ~ partial_page_claim empty_world
         (snd (process_page sample_store sample_get_five sample_urljoin
                 (base_url sample_store) None empty_world)).
Proof.
  split; [reflexivity|]. split.
  { intros H. apply (H empty_world). reflexivity. }
  split; [reflexivity|]. split; [reflexivity|].
  intros [_ H]. vm_compute in H. discriminate.
Qed.

(** C6 (partial-page resilience), amended.  Every listing node without a
    resolvable [product_url] -- no link anchor, or an anchor with an empty
    [href] -- is discarded before the filter and the identifier are
    attempted: [parse_item] returns [None] and leaves the state, the log
    included, as it was.  On a page of [n] nodes of which [k] lack a URL,
    the others being accepted with distinct identifiers that are not in the
    directory yet, [process_page] persists exactly [n - k] records and logs
    no warning; with 5 nodes of which 2 lack a URL: 3 records, no
    warning. *)
Theorem missing_url_discarded :
  (forall item condition_filter w,
      lacks_url item = true ->
      parse_item item condition_filter w = (Ok None, w)
      /\ task_of condition_filter item = None)
  /\ (forall store_name requests_get urljoin url condition_filter soup w (n k : nat),
        requests_get url = Response soup ->
        (forall e, pagination_next soup = Some e -> is_Some (attrs e !! "href")) ->
        Forall (fun item => lacks_url item = true \/ accepted condition_filter item)
          (s_items soup) ->
        length (s_items soup) = n ->
        length (List.filter lacks_url (s_items soup)) = k ->
        NoDup (List.map fst (tasks_of condition_filter (s_items soup))) ->
        (forall t, t ∈ tasks_of condition_filter (s_items soup) ->
                   files w !! (fst t +:+ ".json") = None) ->
        let run := process_page store_name requests_get urljoin url condition_filter w in
        (exists next_url, fst run = Ok next_url)
        /\ len (tasks_of condition_filter (s_items soup)) = Z.of_nat n - Z.of_nat k
        /\ count_json (files (snd run)) = count_json (files w) + (Z.of_nat n - Z.of_nat k)
        /\ count_level WARNING (log (snd run)) = count_level WARNING (log w)).
Proof.
  split.
  - intros item condition_filter w H. split; [now apply lacks_url_parse|].
    unfold task_of, result_of. now rewrite lacks_url_parse.
  - intros store_name requests_get urljoin url condition_filter soup w n k
      Hget Hnext Hitems Hn Hk Hnd Hfresh run.
    destruct (lacking_or_accepted _ _ Hitems) as (Hr & Hlen & Hwarn).
    assert (len (tasks_of condition_filter (s_items soup)) = Z.of_nat n - Z.of_nat k)
      as Htasks by (unfold len; lia).
    subst run.
    rewrite (process_page_fetched _ _ _ _ _ soup) by (try split; assumption).
    simpl. split; [eauto|]. split; [exact Htasks|]. split.
    + rewrite count_json_store by assumption. lia.
    + unfold page_events. rewrite !count_level_app, Hwarn, count_level_saving_events.
      unfold count_level. simpl.
      destruct (Py.truthy_opt (next_url_of store_name urljoin soup)); simpl; lia.
Qed.

Lemma missing_url_discarded_witness :
  let run := process_page sample_store sample_get_five sample_urljoin
               (base_url sample_store) None empty_world in
  count_json (files (snd run)) = 3
  /\ count_level WARNING (log (snd run)) = 0%nat
  /\ parse_item sample_empty_href None empty_world = (Ok None, empty_world).
Proof.
  intros run.
  destruct (proj2 missing_url_discarded sample_store sample_get_five sample_urljoin
              (base_url sample_store) None (mkSoup five_nodes None) empty_world 5%nat 2%nat)
    as (_ & _ & Hcount & Hwarn); try reflexivity.
  - discriminate.
  - cbn [s_items]. unfold five_nodes.
    repeat (apply List.Forall_cons;
            [first [ left; reflexivity
                   | right; eexists _, _; split;
                     [split; [eexists; split; reflexivity
                             | split; [discriminate | reflexivity]]
                     | reflexivity] ] |]).
    apply List.Forall_nil.
  - vm_compute. repeat constructor; set_solver.
  - split; [exact Hcount | split; [exact Hwarn|]].
    apply (proj1 missing_url_discarded). reflexivity.
Defined.

(** ** C4: a failed fetch *)

(** C4 (transport failure).  When the fetch of the current page fails,
    [process_page] logs the failure at the error level and hands it to the
    loop as its result, no next URL; the iteration in progress is then the
    last one of the crawl, whatever number of iterations could still be
    run: the failed URL is the last one handed to [requests.get], the
    directory is left as it was, and the loop ends. *)
Theorem fetch_failure_stops_crawl store_name requests_get urljoin
    (condition_filter : option string) (url message : string) :
  url <> "" ->
  requests_get url = RequestException message ->
  forall fuel page_count item_count w,
    process_page store_name requests_get urljoin url condition_filter w =
      (Ok None,
       mkWorld (files w)
         (log w ++ [(INFO, ProcessingPage url); (ERROR, FetchFailed url message)])
         (requested w ++ [url]))
    /\ exists w',
         crawl_loop store_name requests_get urljoin (S fuel) condition_filter
           (Some url) page_count item_count w =
           (Ok (Some (page_count + 1, count_json (files w))), w')
         /\ requested w' = requested w ++ [url]
         /\ files w' = files w
         /\ (ERROR, FetchFailed url message) ∈ log w'
         /\ last (log w') =
            Some (INFO, CrawlCompleted (page_count + 1) (count_json (files w))).
Proof.
  intros Hurl Hget fuel page_count item_count w. split.
  - now apply process_page_failed.
  - rewrite (crawl_loop_failed _ _ _ _ _ _ message) by assumption.
    eexists. split; [reflexivity|]. simpl. repeat split.
    + apply elem_of_app. right. set_solver.
    + rewrite last_app. reflexivity.
Qed.

Lemma fetch_failure_stops_crawl_witness :
  exists w',
    crawl_loop sample_store sample_get_broken sample_urljoin 7 None
      (Some page_two) 1 2 world_after_earlier_run = (Ok (Some (2, 2)), w')
    /\ requested w' = [page_two].
Proof.
  destruct (fetch_failure_stops_crawl sample_store sample_get_broken sample_urljoin
              None page_two "503 Server Error: Service Unavailable"
              ltac:(discriminate) eq_refl 6%nat 1 2 world_after_earlier_run)
    as (_ & w' & Hrun & Hreq & _).
  exists w'. split; [exact Hrun | exact Hreq].
Defined.

(** ** C5: the item count *)

(** C5 (progress accounting).  One iteration of the loop sets [item_count]
    to the number of [.json] files found in the directory after the page,
    and logs as the page's new items the difference with the previous
    count.  So when [crawl] returns, the item count it returns is the number
    of [.json] files in the directory, the files that were there before the
    crawl included, and the logged differences add up to it. *)
Theorem item_count_is_directory_count store_name requests_get urljoin
    (condition_filter : option string) :
  (forall fuel url page_count item_count w next_url w1,
      url <> "" ->
      process_page store_name requests_get urljoin url condition_filter
        (add_log [(INFO, ProcessingPageNumber (page_count + 1))] w) = (Ok next_url, w1) ->
      crawl_loop store_name requests_get urljoin (S fuel) condition_filter
        (Some url) page_count item_count w =
      crawl_loop store_name requests_get urljoin fuel condition_filter
        next_url (page_count + 1) (count_json (files w1))
        (add_log [(INFO, ExtractedNewItems (count_json (files w1) - item_count)
                           (page_count + 1))] w1))
  /\ (forall fuel w page_count item_count w',
        crawl store_name requests_get urljoin fuel condition_filter w =
          (Ok (Some (page_count, item_count)), w') ->
        item_count = count_json (files w')
        /\ count_json (files w) <= item_count
        /\ sum (deltas (log w')) = sum (deltas (log w)) + item_count).
Proof.
  split.
  - intros fuel url page_count item_count w next_url w1 Hurl Hpage.
    rewrite crawl_loop_step by assumption. now rewrite Hpage.
  - intros fuel w page_count item_count w' H. rewrite crawl_eq in H.
    apply crawl_loop_accounting in H as (Hcount & Hsum & Hdom & _);
      [|apply base_url_nonempty].
    simpl in Hsum, Hdom. rewrite deltas_app, sum_app in Hsum. simpl in Hsum.
    split; [exact Hcount|]. split; [|lia].
    rewrite Hcount. now apply count_json_mono.
Qed.

Lemma item_count_is_directory_count_witness :
  let run := crawl sample_store sample_get_five sample_urljoin 3 None
               world_after_earlier_run in
  fst run = Ok (Some (1, 5))
  /\ count_json (files (snd run)) = 5
  /\ deltas (log (snd run)) = [5].
Proof.
  intros run.
  assert (run = (Ok (Some (1, 5)), snd run)) as Hrun by (vm_compute; reflexivity).
  destruct (proj2 (item_count_is_directory_count sample_store sample_get_five
                     sample_urljoin None) 3%nat world_after_earlier_run 1 5 (snd run) Hrun)
    as (Hcount & _ & _).
  split; [reflexivity|]. split; [now rewrite <- Hcount | reflexivity].
Defined.

(** ** Termination on a finite chain of well-formed pages *)

(** X16.  On every finite pagination chain that starts at the first page of
    the store and whose pages are well formed -- every link anchor and every
    next-page anchor has an [href] --, whatever the listings of its pages
    are -- a page may well yield no valid record --, [crawl] handles the
    pages one after the other and ends at the page without a next-page
    link: with as many iterations as the chain has pages it returns their
    number as its page count and the number of [.json] files as its item
    count, having fetched the URLs of the chain in order and nothing else;
    with fewer iterations the loop has not ended. *)
Theorem crawl_terminates_on_chain store_name requests_get urljoin
    (condition_filter : option string) (pages : list Soup) :
  (forall href, urljoin (base_url store_name) href <> "") ->
  chain store_name requests_get urljoin (base_url store_name) pages ->
  forall fuel w,
    ((length pages <= fuel)%nat ->
     exists w',
       crawl store_name requests_get urljoin fuel condition_filter w =
         (Ok (Some (len pages, count_json (files w'))), w')
       /\ requested w' =
          requested w ++ chain_urls store_name urljoin (base_url store_name) pages)
    /\ ((fuel < length pages)%nat ->
        fst (crawl store_name requests_get urljoin fuel condition_filter w) = Ok None).
Proof.
  intros Hjoin Hchain fuel w. rewrite crawl_eq. split; intros Hfuel.
  - destruct (crawl_loop_chain _ _ _ Hjoin condition_filter _ _ Hchain fuel 0 0
                (add_log [(INFO, StartingCrawl condition_filter)] w)
                (base_url_nonempty _) Hfuel)
      as (w' & Hrun & Hfiles & Hreq).
    exists w'. rewrite Hrun, Hfiles. auto.
  - apply (crawl_loop_chain_short _ _ _ Hjoin condition_filter _ _ Hchain);
      [apply base_url_nonempty | exact Hfuel].
Qed.

Lemma sample_urljoin_nonempty href :
  sample_urljoin (base_url sample_store) href <> "".
Proof.
  unfold sample_urljoin. destruct (String.eqb_spec href ""); [discriminate | assumption].
Qed.

(** The anchor at hand, if any, has an [href]. *)
Ltac href_readable :=
  let e := fresh "e" in
  let He := fresh "He" in
  intros e He; simpl in He;
  first [discriminate He | injection He as <-; eexists; reflexivity].

Lemma sample_chain :
  chain sample_store sample_get sample_urljoin (base_url sample_store) three_pages.
Proof.
  eapply chain_next; [reflexivity | | reflexivity |].
  { split; [|href_readable].
    repeat apply List.Forall_cons; try apply List.Forall_nil;
      href_readable. }
  eapply chain_next; [reflexivity | | reflexivity |].
  { split; [|href_readable].
    repeat apply List.Forall_cons; try apply List.Forall_nil.
    - href_readable.
    - href_readable. }
  eapply chain_last; [reflexivity | | reflexivity].
  split; [|href_readable].
  repeat apply List.Forall_cons; try apply List.Forall_nil.
  href_readable.
Qed.

Lemma crawl_terminates_on_chain_witness :
  (exists w',
     crawl sample_store sample_get sample_urljoin 3 (Some "New") empty_world =
       (Ok (Some (3, count_json (files w'))), w')
     /\ requested w' = [base_url sample_store; page_two; page_three])
  /\ fst (crawl sample_store sample_get sample_urljoin 2 (Some "New") empty_world) = Ok None.
Proof.
  pose proof (crawl_terminates_on_chain sample_store sample_get sample_urljoin
                (Some "New") three_pages sample_urljoin_nonempty sample_chain) as H.
  split.
  - destruct (proj1 (H 3%nat empty_world)) as (w' & Hrun & Hreq);
      [simpl; lia|].
    exists w'. split; [exact Hrun | exact Hreq].
  - apply (proj2 (H 2%nat empty_world)). simpl. lia.
Defined.

(** ** C10: what [crawl] returns after a failed fetch *)

(** C10 (result after a failure).  When the pages of a chain are fetched
    and the fetch of the next one, page N, fails, [crawl] still returns a
    pair: N as its page count, the failed page counted, and the number of
    [.json] files of the directory as its item count.  A server that gives
    at that URL a last page without listings makes [crawl] return the very
    same pair at the normal end of its chain of N pages: the value returned
    does not tell the two runs apart. *)
Theorem crawl_result_after_failure store_name requests_get urljoin
    (condition_filter : option string) (pages : list Soup) (bad : string) :
  (forall href, urljoin (base_url store_name) href <> "") ->
  broken_chain store_name requests_get urljoin (base_url store_name) pages bad ->
  forall fuel w,
    (length pages < fuel)%nat ->
    exists w',
      crawl store_name requests_get urljoin fuel condition_filter w =
        (Ok (Some (len pages + 1, count_json (files w'))), w')
      /\ requested w' =
         requested w ++ chain_urls store_name urljoin (base_url store_name) pages ++ [bad]
      /\ chain store_name (patched requests_get bad) urljoin (base_url store_name)
           (pages ++ [mkSoup [] None])
      /\ fst (crawl store_name (patched requests_get bad) urljoin fuel condition_filter w) =
         Ok (Some (len pages + 1, count_json (files w'))).
Proof.
  intros Hjoin Hbroken fuel w Hfuel. rewrite !crawl_eq.
  destruct (crawl_loop_broken _ _ _ Hjoin condition_filter _ _ _ Hbroken fuel 0 0
              (add_log [(INFO, StartingCrawl condition_filter)] w)
              (base_url_nonempty _) Hfuel)
    as (w' & Hrun & Hfiles & Hreq).
  pose proof (broken_chain_patched _ _ _ _ _ _ Hbroken) as Hchain.
  destruct (crawl_loop_chain _ _ _ Hjoin condition_filter _ _ Hchain fuel 0 0
              (add_log [(INFO, StartingCrawl condition_filter)] w)
              (base_url_nonempty _))
    as (w'' & Hrun' & Hfiles' & _).
  { rewrite length_app. simpl. lia. }
  exists w'. rewrite Hrun, Hrun', Hfiles. simpl in Hfiles, Hreq.
  split; [reflexivity|]. split; [exact Hreq|]. split; [exact Hchain|].
  simpl. rewrite store_pages_app. simpl.
  unfold len. rewrite length_app. simpl length.
  do 3 f_equal. lia.
Qed.

Lemma sample_broken_chain :
  broken_chain sample_store sample_get_broken sample_urljoin (base_url sample_store)
    [mkSoup [sample_new; sample_used] (Some (anchor page_two))] page_two.
Proof.
  eapply broken_next; [reflexivity | | reflexivity |].
  - split; [|href_readable].
    repeat apply List.Forall_cons; try apply List.Forall_nil;
      href_readable.
  - eapply broken_here. reflexivity.
Qed.

Lemma crawl_result_after_failure_witness :
  exists w',
    crawl sample_store sample_get_broken sample_urljoin 5 None world_after_earlier_run =
      (Ok (Some (2, 4)), w')
    /\ fst (crawl sample_store (patched sample_get_broken page_two) sample_urljoin 5 None
              world_after_earlier_run) = Ok (Some (2, 4)).
Proof.
  destruct (crawl_result_after_failure sample_store sample_get_broken sample_urljoin
              None _ _ sample_urljoin_nonempty sample_broken_chain 5%nat
              world_after_earlier_run ltac:(simpl; lia))
    as (w' & Hrun & _ & _ & Hsame).
  exists w'. split.
  - rewrite Hrun. do 3 f_equal.
    apply (f_equal (fun r => count_json (files (snd r)))) in Hrun.
    simpl in Hrun. rewrite <- Hrun. vm_compute. reflexivity.
  - rewrite Hsame. do 3 f_equal.
    apply (f_equal (fun r => count_json (files (snd r)))) in Hrun.
    simpl in Hrun. rewrite <- Hrun. vm_compute. reflexivity.
Defined.

(** * Further properties *)

(** ** What the loop of [process_page] collects *)

Lemma task_of_Some condition_filter item item_id data :
  task_of condition_filter item = Some (item_id, data) ->
  valid_listing item (product_url data) item_id
  /\ filtered_out condition_filter (condition_of item) = false
  /\ data = mkItemData (title_of item) (condition_of item) (price_of item)
              (product_url data).
Proof.
  unfold task_of, result_of. intros H.
  destruct (link_elem item) as [e|] eqn:Hl;
    [|rewrite parse_item_no_link in H by assumption; discriminate].
  destruct (attrs e !! "href") as [url|] eqn:Ha;
    [|erewrite parse_item_no_href in H by eauto; discriminate].
  destruct (String.eqb_spec url "") as [->|Hne];
    [erewrite parse_item_empty_href in H by eauto; discriminate|].
  destruct (filtered_out condition_filter (condition_of item)) eqn:Hf;
    [erewrite parse_item_filtered in H by eauto; discriminate|].
  destruct (extract_item_id url) as [item_id'|] eqn:Hid;
    [|erewrite parse_item_no_id in H by eauto; discriminate].
  erewrite parse_item_accepted in H by eauto. simpl in H. rewrite Hid in H.
  destruct (Py.truthy item_id'); [|discriminate].
  injection H as <- <-. simpl. repeat split; eauto.
Qed.

Lemma extract_item_id_digits url item_id :
  extract_item_id url = Some item_id ->
  item_id <> "" /\ Py.all Py.isdecimal item_id = true.
Proof.
  intros H. apply search_itm_Some in H as (pre & rest & (_ & Hne & Hd & _) & _).
  auto.
Qed.

(** X1.  Every write task the loop collects comes from a node of the page: its
    key is the identifier derived from the [product_url] of its record, a
    non-empty run of digits; the record holds the fields of that node, its
    condition passes the filter and its price is made of digits and full
    stops. *)
Theorem collected_tasks_sound (items : list Item) (condition_filter : option string)
    (w w' : World) (tasks : list (string * ItemData)) :
  collect_tasks items condition_filter w = (Ok tasks, w') ->
  Forall (fun t =>
            exists item,
              item ∈ items
              /\ valid_listing item (product_url (snd t)) (fst t)
              /\ snd t = mkItemData (title_of item) (condition_of item)
                           (price_of item) (product_url (snd t))
              /\ passes_filter condition_filter (condition (snd t))
              /\ Py.all Re.digit_or_dot (price (snd t)) = true
              /\ item_file (fst t +:+ ".json"))
         tasks.
Proof.
  intros H. pose proof (collect_tasks_Ok _ _ _ _ _ H) as Hr.
  rewrite collect_tasks_readable in H by assumption. injection H as <- _.
  clear Hr. unfold tasks_of. induction items as [|item items IH]; [constructor|].
  cbn [omap list_omap].
  destruct (task_of condition_filter item) as [[item_id data]|] eqn:Ht.
  - constructor.
    + apply task_of_Some in Ht as (Hv & Hf & Hd). exists item. simpl.
      split; [left|]. split; [exact Hv|]. split; [exact Hd|].
      rewrite Hd at 1 2. simpl. split; [now apply filtered_out_false|].
      split; [apply all_keep|].
      destruct Hv as (_ & _ & Hid). apply extract_item_id_digits in Hid as [? ?].
      now exists item_id.
    + eapply Forall_impl; [exact IH|]. intros t (it & Hin & Hrest).
      exists it. split; [now right | exact Hrest].
  - eapply Forall_impl; [exact IH|]. intros t (it & Hin & Hrest).
    exists it. split; [now right | exact Hrest].
Qed.

Lemma collected_tasks_sound_witness :
  Forall (fun t => item_file (fst t +:+ ".json"))
    (tasks_of (Some "") [sample_new; sample_no_link; sample_used]).
Proof.
  eapply Forall_impl.
  - apply (collected_tasks_sound [sample_new; sample_no_link; sample_used]
             (Some "") empty_world
             (snd (collect_tasks [sample_new; sample_no_link; sample_used]
                     (Some "") empty_world))
             (tasks_of (Some "") [sample_new; sample_no_link; sample_used])).
    reflexivity.
  - intros t (item & _ & _ & _ & _ & _ & H). exact H.
Defined.

(** ** Filters compared *)

Lemma task_of_unfiltered condition_filter item t :
  task_of condition_filter item = Some t -> task_of None item = Some t.
Proof.
  destruct t as [item_id data]. intros H.
  apply task_of_Some in H as (((e & Hl & Ha) & Hne & Hid) & _ & Hd).
  unfold task_of, result_of.
  erewrite parse_item_accepted by eauto. simpl. rewrite Hid.
  destruct (extract_item_id_digits _ _ Hid) as [Hid' _].
  apply truthy_true in Hid'. rewrite Hid'. now rewrite <- Hd.
Qed.

Lemma tasks_of_sublist condition_filter items :
  sublist (tasks_of condition_filter items) (tasks_of None items).
Proof.
  unfold tasks_of. induction items as [|item items IH]; [constructor|].
  cbn [omap list_omap].
  destruct (task_of condition_filter item) as [t|] eqn:Ht.
  - rewrite (task_of_unfiltered _ _ _ Ht). now constructor.
  - destruct (task_of None item); [now constructor | exact IH].
Qed.

(** X2.  A filter only removes records: the write tasks of a page under a filter
    are, in order and unchanged, among the write tasks of the same page
    without filter, and so are the files they leave. *)
Theorem filter_only_removes (items : list Item) (condition_filter : option string)
    (w w' : World) (tasks : list (string * ItemData)) :
  collect_tasks items condition_filter w = (Ok tasks, w') ->
  exists unfiltered w0,
    collect_tasks items None w = (Ok unfiltered, w0)
    /\ sublist tasks unfiltered
    /\ forall fs : gmap string string,
         dom (store tasks fs) ⊆ dom (store unfiltered fs).
Proof.
  intros H. pose proof (collect_tasks_Ok _ _ _ _ _ H) as Hr.
  rewrite collect_tasks_readable in H by assumption. injection H as <- _.
  exists (tasks_of None items), (add_log (parse_events None items) w).
  split; [now apply collect_tasks_readable|].
  pose proof (tasks_of_sublist condition_filter items) as Hsub.
  split; [exact Hsub|]. intros fs. rewrite !dom_store.
  apply sublist_subseteq in Hsub.
  intros name [Hin | Hin]%elem_of_union; [|set_solver].
  apply elem_of_union. left. apply elem_of_list_to_set.
  apply elem_of_list_to_set in Hin. apply list_elem_of_In, in_map_iff in Hin
    as (t & <- & Hin). apply list_elem_of_In, in_map_iff. exists t.
  split; [reflexivity|]. apply list_elem_of_In, Hsub. now apply list_elem_of_In.
Qed.

Lemma filter_only_removes_witness :
  exists unfiltered w0,
    collect_tasks five_nodes None empty_world = (Ok unfiltered, w0)
    /\ sublist (tasks_of (Some "used") five_nodes) unfiltered.
Proof.
  destruct (filter_only_removes five_nodes (Some "used") empty_world
              (snd (collect_tasks five_nodes (Some "used") empty_world))
              (tasks_of (Some "used") five_nodes) eq_refl)
    as (unfiltered & w0 & Hrun & Hsub & _).
  exists unfiltered, w0. split; assumption.
Defined.

Lemma lower_empty s : Py.lower s = "" <-> s = "".
Proof. destruct s; simpl; split; congruence. Qed.

Lemma filtered_out_ci f g condition :
  ci_eq f g -> filtered_out (Some f) condition = filtered_out (Some g) condition.
Proof.
  unfold ci_eq, filtered_out. intros H. rewrite H. f_equal.
  destruct (Py.truthy f) eqn:Hf.
  - symmetry. apply truthy_true. apply truthy_true in Hf.
    intros ->. apply Hf, lower_empty. now rewrite H.
  - symmetry. apply truthy_false. apply truthy_false in Hf. subst f.
    apply lower_empty. now rewrite <- H.
Qed.

Lemma result_of_parse_item_ci f g item :
  ci_eq f g ->
  result_of (parse_item item (Some f)) = result_of (parse_item item (Some g)).
Proof.
  intros H. unfold result_of.
  destruct (link_elem item) as [e|] eqn:Hl;
    [|now rewrite !parse_item_no_link by assumption].
  destruct (attrs e !! "href") as [url|] eqn:Ha;
    [|now erewrite !parse_item_no_href by eauto].
  destruct (String.eqb_spec url "") as [->|Hne];
    [now erewrite !parse_item_empty_href by eauto|].
  pose proof (filtered_out_ci f g (condition_of item) H) as Hfg.
  destruct (filtered_out (Some f) (condition_of item)) eqn:Hf.
  - erewrite !parse_item_filtered by eauto. reflexivity.
  - destruct (extract_item_id url) as [item_id|] eqn:Hid.
    + erewrite !parse_item_accepted by eauto. reflexivity.
    + erewrite !parse_item_no_id by eauto. reflexivity.
Qed.

(** X3.  The filter is compared case apart on both sides: two filters that differ
    in case only make [parse_item] return the same for every node, and make
    the loop of [process_page] collect the same write tasks for every
    page. *)
Theorem filter_case_insensitive (f g : string) :
  ci_eq f g ->
  (forall item w,
      fst (parse_item item (Some f) w) = fst (parse_item item (Some g) w))
  /\ (forall items w,
        fst (collect_tasks items (Some f) w) = fst (collect_tasks items (Some g) w)).
Proof.
  intros H. split.
  - intros item w. rewrite !result_of_fst by apply parse_item_logs_only.
    now apply result_of_parse_item_ci.
  - intros items w. rewrite !result_of_fst by apply collect_tasks_logs_only.
    induction items as [|item items IH]; [reflexivity|].
    rewrite !result_of_collect_tasks_cons, IH. unfold task_of.
    now rewrite (result_of_parse_item_ci f g item H).
Qed.

Lemma filter_case_insensitive_witness :
  fst (collect_tasks five_nodes (Some "pre-OWNED") empty_world) =
  fst (collect_tasks five_nodes (Some "Pre-Owned") empty_world).
Proof.
  apply (proj2 (filter_case_insensitive "pre-OWNED" "Pre-Owned" eq_refl)).
Defined.

(** ** Every outcome of [process_page] *)

Lemma readable_or_no_href items :
  Forall readable items \/ Exists no_href items.
Proof.
  induction items as [|item items [IH|IH]].
  - left. constructor.
  - destruct (link_elem item) as [e|] eqn:Hl.
    + destruct (attrs e !! "href") as [url|] eqn:Ha.
      * left. constructor; [|exact IH]. intros e' He'.
        assert (e' = e) as -> by congruence. eauto.
      * right. left. now exists e.
    + left. constructor; [|exact IH]. intros e' He'. congruence.
  - right. now right.
Qed.

Lemma result_of_parse_item_Raise item condition_filter e :
  result_of (parse_item item condition_filter) = Raise e -> e = KeyError "href".
Proof.
  unfold result_of. intros H.
  destruct (link_elem item) as [a|] eqn:Hl;
    [|rewrite parse_item_no_link in H by assumption; discriminate].
  destruct (attrs a !! "href") as [url|] eqn:Ha;
    [|erewrite parse_item_no_href in H by eauto; simpl in H; congruence].
  destruct (String.eqb_spec url "") as [->|Hne];
    [erewrite parse_item_empty_href in H by eauto; discriminate|].
  destruct (filtered_out condition_filter (condition_of item)) eqn:Hf;
    [erewrite parse_item_filtered in H by eauto; discriminate|].
  destruct (extract_item_id url) as [item_id|] eqn:Hid;
    [erewrite parse_item_accepted in H by eauto; discriminate
    |erewrite parse_item_no_id in H by eauto; discriminate].
Qed.

Lemma collect_tasks_no_href items condition_filter :
  Exists no_href items ->
  result_of (collect_tasks items condition_filter) = Raise (KeyError "href").
Proof.
  induction 1 as [item items (e & Hl & Ha) | item items _ IH];
    rewrite result_of_collect_tasks_cons.
  - unfold result_of at 1. erewrite parse_item_no_href by eauto. reflexivity.
  - destruct (result_of (parse_item item condition_filter)) as [r|e] eqn:Er.
    + rewrite IH. now destruct (task_of condition_filter item).
    + now rewrite (result_of_parse_item_Raise _ _ _ Er).
Qed.

Lemma tasks_of_item_files condition_filter items :
  Forall (fun t => item_file (fst t +:+ ".json")) (tasks_of condition_filter items).
Proof.
  unfold tasks_of. induction items as [|item items IH]; [constructor|].
  cbn [omap list_omap].
  destruct (task_of condition_filter item) as [[item_id data]|] eqn:Ht;
    [|exact IH].
  constructor; [|exact IH].
  apply task_of_Some in Ht as ((_ & _ & Hid) & _).
  apply extract_item_id_digits in Hid as [? ?]. now exists item_id.
Qed.

Section Outcomes.

Variable store_name : string.
Variable requests_get : string -> Fetched.
Variable urljoin : string -> string -> string.

Local Abbreviation page := (process_page store_name requests_get urljoin).
Local Abbreviation loop := (crawl_loop store_name requests_get urljoin).

(** A node without [href] stops [process_page] before anything is
    written. *)
Lemma process_page_no_href url condition_filter soup w :
  requests_get url = Response soup ->
  Exists no_href (s_items soup) ->
  exists events,
    page url condition_filter w =
    (Raise (KeyError "href"),
     mkWorld (files w) (log w ++ events) (requested w ++ [url])).
Proof.
  intros Hget Hex. unfold process_page. unfold bind at 1 2.
  unfold emit at 1, note_request. cbv beta iota. rewrite Hget.
  unfold bind at 1. unfold emit at 1. cbv beta iota.
  unfold bind at 1. rewrite (collect_tasks_logs_only _ condition_filter).
  rewrite (collect_tasks_no_href _ _ Hex).
  eexists. unfold add_log. simpl. rewrite <- !app_assoc. reflexivity.
Qed.

(** The state in which [process_page] looks for the next-page link, on a
    page whose nodes are all readable. *)
Lemma process_page_readable url condition_filter soup w :
  requests_get url = Response soup ->
  Forall readable (s_items soup) ->
  exists events,
    let w2 := mkWorld (store (tasks_of condition_filter (s_items soup)) (files w))
                (log w ++ events) (requested w ++ [url]) in
    page url condition_filter w =
    match pagination_next soup with
    | None => (Ok None, add_log [(INFO, NoMorePages)] w2)
    | Some e =>
        match attrs e !! "href" with
        | None => (Raise (KeyError "href"), w2)
        | Some href =>
            (Ok (Some (urljoin (base_url store_name) href)),
             add_log [(INFO, if Py.truthy (urljoin (base_url store_name) href)
                             then FoundNextPage (urljoin (base_url store_name) href)
                             else NoMorePages)] w2)
        end
    end.
Proof.
  intros H Hitems.
  exists ([(INFO, ProcessingPage url); (INFO, FoundItems (len (s_items soup)))]
          ++ parse_events condition_filter (s_items soup)
          ++ saving_events (tasks_of condition_filter (s_items soup))).
  cbv zeta. unfold process_page. unfold bind at 1 2.
  unfold emit at 1, note_request. cbv beta iota. rewrite H.
  unfold bind at 1. unfold emit at 1. cbv beta iota.
  unfold bind at 1. rewrite collect_tasks_readable by assumption.
  set (tasks := tasks_of condition_filter (s_items soup)).
  set (evs := parse_events condition_filter (s_items soup)).
  unfold bind at 1.
  assert (forall w0,
    match tasks with
    | [] => ret ()
    | _ :: _ => bind (emit INFO (SavingItems (len tasks))) (fun _ => gather tasks)
    end w0 =
    (Ok tt, mkWorld (store tasks (files w0)) (log w0 ++ saving_events tasks)
              (requested w0))) as Hsave.
  { intros w0. destruct tasks as [|t tasks'] eqn:Et.
    - unfold ret. destruct w0; simpl. now rewrite app_nil_r.
    - unfold bind, emit. rewrite gather_run. simpl.
      now rewrite <- app_assoc. }
  rewrite Hsave. clear Hsave. cbv beta iota. unfold add_log; simpl.
  destruct (pagination_next soup) as [e|] eqn:Hp.
  - unfold bind at 1 2, getitem. destruct (attrs e !! "href") as [href|] eqn:Ha.
    + unfold ret, bind, emit. simpl.
      destruct (Py.truthy (urljoin (base_url store_name) href));
        simpl; f_equal; f_equal;
        repeat (rewrite <- ?app_assoc; simpl); reflexivity.
    + unfold raise. simpl. f_equal. f_equal.
      repeat (rewrite <- ?app_assoc; simpl); reflexivity.
  - unfold bind, ret, emit. simpl. f_equal. f_equal.
    repeat (rewrite <- ?app_assoc; simpl); reflexivity.
Qed.

(** Whatever a call of [process_page] ends with, it has handed its URL,
    and nothing else, to [requests.get], and the directory is the one it
    found with the records of some write tasks, with item file names,
    stored in it. *)
Lemma process_page_outcome url condition_filter w :
  requested (snd (page url condition_filter w)) = requested w ++ [url]
  /\ exists tasks,
       files (snd (page url condition_filter w)) = store tasks (files w)
       /\ Forall (fun t => item_file (fst t +:+ ".json")) tasks.
Proof.
  destruct (requests_get url) as [soup|message] eqn:Hget.
  - destruct (readable_or_no_href (s_items soup)) as [Hr|Hex].
    + destruct (process_page_readable _ condition_filter _ w Hget Hr)
        as [events Hrun]. cbv zeta in Hrun. rewrite Hrun.
      split.
      * destruct (pagination_next soup) as [e|]; [|reflexivity].
        destruct (attrs e !! "href"); reflexivity.
      * exists (tasks_of condition_filter (s_items soup)).
        split; [|apply tasks_of_item_files].
        destruct (pagination_next soup) as [e|]; [|reflexivity].
        destruct (attrs e !! "href"); reflexivity.
    + destruct (process_page_no_href _ condition_filter _ w Hget Hex)
        as [events ->]. split; [reflexivity|]. exists []. split; [reflexivity|constructor].
  - rewrite (process_page_failed _ _ _ _ _ message) by assumption.
    split; [reflexivity|]. exists []. split; [reflexivity|constructor].
Qed.

End Outcomes.

(** ** Markup without [href] *)

(** X5.  One listing node whose link anchor has no [href] makes [process_page]
    raise [KeyError] before any record of its page is written, the records
    of the valid nodes before it included; the exception leaves the
    iteration of [crawl] that meets it, so the crawl ends with it. *)
Theorem no_href_aborts_page store_name requests_get urljoin
    (url : string) (condition_filter : option string) (soup : Soup) (w : World) :
  requests_get url = Response soup ->
  Exists no_href (s_items soup) ->
  (exists w',
     process_page store_name requests_get urljoin url condition_filter w =
       (Raise (KeyError "href"), w')
     /\ files w' = files w
     /\ requested w' = requested w ++ [url])
  /\ (url <> "" ->
      forall fuel page_count item_count,
      exists w',
        crawl_loop store_name requests_get urljoin (S fuel) condition_filter
          (Some url) page_count item_count w = (Raise (KeyError "href"), w')
        /\ files w' = files w).
Proof.
  intros Hget Hex. split.
  - destruct (process_page_no_href store_name _ urljoin _ condition_filter _ w Hget Hex)
      as [events ->]. eexists. split; [reflexivity|]. split; reflexivity.
  - intros Hurl fuel page_count item_count.
    rewrite crawl_loop_step by assumption.
    destruct (process_page_no_href store_name _ urljoin _ condition_filter _
                (add_log [(INFO, ProcessingPageNumber (page_count + 1))] w) Hget Hex)
      as [events ->]. eexists. split; reflexivity.
Qed.

Lemma no_href_aborts_page_witness :
  exists w',
    crawl sample_store sample_get_no_href sample_urljoin 4 None
      world_after_earlier_run = (Raise (KeyError "href"), w')
    /\ files w' = files world_after_earlier_run.
Proof.
  destruct (proj2 (no_href_aborts_page sample_store sample_get_no_href sample_urljoin
                     (base_url sample_store) None
                     (mkSoup [sample_new; sample_no_href; sample_used] None)
                     (add_log [(INFO, StartingCrawl None)] world_after_earlier_run)
                     eq_refl
                     ltac:(right; left; eexists; split; reflexivity))
              ltac:(discriminate) 3%nat 0 0)
    as (w' & Hrun & Hfiles).
  exists w'. split; [exact Hrun | exact Hfiles].
Defined.

(** X6.  A next-page anchor without [href] makes [process_page] raise
    [KeyError] too, but only after the records of the page have been
    written: when the identifiers of the page are distinct, the directory
    is then the one the writes of the page leave, in whatever order they
    complete. *)
Theorem bad_next_link_after_writes store_name requests_get urljoin
    (url : string) (condition_filter : option string) (soup : Soup) (e : Tag)
    (w : World) :
  requests_get url = Response soup ->
  Forall readable (s_items soup) ->
  NoDup (List.map fst (tasks_of condition_filter (s_items soup))) ->
  pagination_next soup = Some e ->
  attrs e !! "href" = None ->
  exists w',
    process_page store_name requests_get urljoin url condition_filter w =
      (Raise (KeyError "href"), w')
    /\ (forall order,
          order ≡ₚ tasks_of condition_filter (s_items soup) ->
          files w' = store order (files w))
    /\ requested w' = requested w ++ [url].
Proof.
  intros Hget Hr Hnd Hp Ha.
  destruct (process_page_readable store_name _ urljoin _ condition_filter _ w Hget Hr)
    as [events Hrun]. cbv zeta in Hrun. rewrite Hp, Ha in Hrun. rewrite Hrun.
  eexists. split; [reflexivity|]. split; [|reflexivity].
  intros order Hperm. simpl. now apply store_Permutation.
Qed.

Lemma bad_next_link_after_writes_witness :
  exists w',
    process_page sample_store sample_get_bad_next sample_urljoin
      (base_url sample_store) None empty_world = (Raise (KeyError "href"), w')
    /\ count_json (files w') = 1.
Proof.
  destruct (bad_next_link_after_writes sample_store sample_get_bad_next sample_urljoin
              (base_url sample_store) None (mkSoup [sample_new] (Some (tag "Next")))
              (tag "Next") empty_world eq_refl)
    as (w' & Hrun & Hfiles & _); try reflexivity.
  - repeat apply List.Forall_cons; try apply List.Forall_nil. href_readable.
  - vm_compute. repeat constructor. set_solver.
  - exists w'. split; [exact Hrun|].
    rewrite (Hfiles (tasks_of None [sample_new])) by reflexivity. reflexivity.
Defined.

(** ** What a crawl does to the directory and to the server *)

Lemma store_frame tasks (fs : gmap string string) name :
  Forall (fun t => item_file (fst t +:+ ".json")) tasks ->
  ~ item_file name ->
  store tasks fs !! name = fs !! name.
Proof.
  intros Htasks Hname. revert fs.
  induction Htasks as [|t tasks Ht _ IH]; intros fs; [reflexivity|].
  change (store (t :: tasks) fs)
    with (store tasks (<[fst t +:+ ".json" := Json.dumps (to_dict (snd t))]> fs)).
  rewrite IH. apply lookup_insert_ne. intros <-. contradiction.
Qed.

Section Frame.

Variable store_name : string.
Variable requests_get : string -> Fetched.
Variable urljoin : string -> string -> string.

Local Abbreviation page := (process_page store_name requests_get urljoin).
Local Abbreviation loop := (crawl_loop store_name requests_get urljoin).

Lemma crawl_loop_frame fuel :
  forall condition_filter url page_count item_count w,
    let w' := snd (loop fuel condition_filter url page_count item_count w) in
    dom (files w) ⊆ dom (files w')
    /\ (forall name, ~ item_file name -> files w' !! name = files w !! name)
    /\ exists urls, requested w' = requested w ++ urls
         /\ (forall page_count' item_count',
               fst (loop fuel condition_filter url page_count item_count w) =
                 Ok (Some (page_count', item_count')) ->
               len urls = page_count' - page_count)
         /\ (forall u, url = Some u -> u <> "" -> fuel <> O -> head urls = Some u).
Proof.
  induction fuel as [|fuel IH]; intros condition_filter url page_count item_count w.
  - cbv zeta. destruct (Py.truthy_opt url) eqn:Ht.
    + rewrite crawl_loop_out_of_fuel by assumption. simpl.
      split; [reflexivity|]. split; [reflexivity|]. exists [].
      rewrite app_nil_r. repeat split; [discriminate | congruence].
    + rewrite crawl_loop_done by assumption. simpl.
      split; [reflexivity|]. split; [reflexivity|]. exists [].
      rewrite app_nil_r. repeat split; [|congruence].
      intros ? ? [= <- _]. unfold len. simpl. lia.
  - cbv zeta. destruct (Py.truthy_opt url) eqn:Ht.
    + destruct url as [u|]; [|discriminate]. apply truthy_true in Ht.
      rewrite crawl_loop_step by assumption.
      destruct (process_page_outcome store_name requests_get urljoin u condition_filter
                  (add_log [(INFO, ProcessingPageNumber (page_count + 1))] w))
        as (Hreq & tasks & Hfiles & Htasks).
      destruct (page u condition_filter _) as [[next_url|e] w1].
      * simpl in Hreq, Hfiles.
        specialize (IH condition_filter next_url (page_count + 1)
                      (count_json (files w1))
                      (add_log [(INFO, ExtractedNewItems
                                         (count_json (files w1) - item_count)
                                         (page_count + 1))] w1)).
        cbv zeta in IH. destruct IH as (Hdom & Hframe & urls & Hurls & Hcount & _).
        simpl in Hdom, Hframe, Hurls.
        split; [|split].
        { etransitivity; [|exact Hdom]. rewrite Hfiles. apply store_mono. }
        { intros name Hname. rewrite (Hframe name Hname), Hfiles.
          now apply store_frame. }
        exists (u :: urls). rewrite Hurls, Hreq, <- app_assoc.
        split; [reflexivity|]. split; [|intros u0 [= <-] _ _; reflexivity].
        intros pc' ic' Hres. specialize (Hcount pc' ic' Hres).
        unfold len in *. simpl length. lia.
      * simpl in Hreq, Hfiles. simpl.
        split; [rewrite Hfiles; apply store_mono|].
        split; [intros name Hname; rewrite Hfiles; now apply store_frame|].
        exists [u]. split; [exact Hreq|].
        split; [discriminate | intros u0 [= <-] _ _; reflexivity].
    + rewrite crawl_loop_done by assumption. simpl.
      split; [reflexivity|]. split; [reflexivity|]. exists [].
      rewrite app_nil_r. split; [reflexivity|]. split.
      * intros ? ? [= <- _]. unfold len. simpl. lia.
      * intros u -> Hu. apply truthy_true in Hu. simpl in Ht. congruence.
Qed.

End Frame.



(** X8.  When [crawl] returns its pair, the page count is the number of calls
    of [requests.get] it made, failed ones included, and the first of them
    asked for the first page of the store. *)
Theorem page_count_counts_requests store_name requests_get urljoin
    (fuel : nat) (condition_filter : option string) (w w' : World)
    (page_count item_count : Z) :
  crawl store_name requests_get urljoin fuel condition_filter w =
    (Ok (Some (page_count, item_count)), w') ->
  exists urls,
    requested w' = requested w ++ urls
    /\ len urls = page_count
    /\ head urls = Some (base_url store_name).
Proof.
  intros H. rewrite crawl_eq in H.
  destruct (crawl_loop_frame store_name requests_get urljoin fuel condition_filter
              (Some (base_url store_name)) 0 0
              (add_log [(INFO, StartingCrawl condition_filter)] w))
    as (_ & _ & urls & Hurls & Hcount & Hhead).
  rewrite H in Hurls, Hcount. simpl in Hurls, Hcount.
  exists urls. split; [exact Hurls|]. split.
  - rewrite (Hcount _ _ eq_refl). lia.
  - apply (Hhead _ eq_refl (base_url_nonempty _)). intros ->.
    rewrite crawl_loop_out_of_fuel in H; [discriminate|].
    apply truthy_true, base_url_nonempty.
Qed.

Lemma page_count_counts_requests_witness :
  exists urls,
    requested (snd (crawl sample_store sample_get_broken sample_urljoin 5 None
                      empty_world)) = [] ++ urls
    /\ len urls = 2.
Proof.
  destruct (page_count_counts_requests sample_store sample_get_broken sample_urljoin
              5 None empty_world
              (snd (crawl sample_store sample_get_broken sample_urljoin 5 None empty_world))
              2 2 ltac:(vm_compute; reflexivity))
    as (urls & Hreq & Hlen & _).
  exists urls. split; [exact Hreq | exact Hlen].
Defined.

(** ** Warnings *)

(** X4.  [parse_item] logs a warning for exactly one kind of node: the link is
    there with a non-empty [href], the condition passes the filter, and the
    URL has no item identifier.  A node the filter rejects, or one without a
    URL, never gives a warning, whatever its link is. *)
Theorem warning_only_without_id (item : Item) (condition_filter : option string)
    (w : World) :
  let w' := snd (parse_item item condition_filter w) in
  ((exists e url,
       link_elem item = Some e /\ attrs e !! "href" = Some url /\ url <> ""
       /\ filtered_out condition_filter (condition_of item) = false
       /\ extract_item_id url = None)
   -> exists url, log w' = log w ++ [(WARNING, NoItemId url)])
  /\ (count_level WARNING (log w') <> count_level WARNING (log w) ->
      exists e url,
        link_elem item = Some e /\ attrs e !! "href" = Some url /\ url <> ""
        /\ filtered_out condition_filter (condition_of item) = false
        /\ extract_item_id url = None).
Proof.
  cbv zeta. split.
  - intros (e & url & Hl & Ha & Hne & Hf & Hid). exists url.
    erewrite parse_item_no_id by eauto. reflexivity.
  - intros Hcount.
    destruct (link_elem item) as [e|] eqn:Hl;
      [|rewrite parse_item_no_link in Hcount by assumption; now simpl in Hcount].
    destruct (attrs e !! "href") as [url|] eqn:Ha;
      [|erewrite parse_item_no_href in Hcount by eauto; now simpl in Hcount].
    destruct (String.eqb_spec url "") as [->|Hne];
      [erewrite parse_item_empty_href in Hcount by eauto; now simpl in Hcount|].
    destruct (filtered_out condition_filter (condition_of item)) eqn:Hf.
    { erewrite parse_item_filtered in Hcount by eauto. simpl in Hcount.
      rewrite count_level_app in Hcount. unfold count_level at 2 in Hcount.
      simpl in Hcount. lia. }
    destruct (extract_item_id url) as [item_id|] eqn:Hid.
    { erewrite parse_item_accepted in Hcount by eauto. simpl in Hcount.
      rewrite count_level_app in Hcount. unfold count_level at 2 in Hcount.
      simpl in Hcount. lia. }
    exists e, url. auto.
Qed.

Lemma warning_only_without_id_witness :
  exists url,
    log (snd (parse_item sample_no_id (Some "new") empty_world)) =
    [] ++ [(WARNING, NoItemId url)].
Proof.
  apply (proj1 (warning_only_without_id sample_no_id (Some "new") empty_world)).
  eexists _, _. split; [reflexivity|]. split; [reflexivity|].
  split; [discriminate|]. split; reflexivity.
Defined.

(** ** A pagination that never ends *)

Lemma crawl_loop_endless store_name requests_get urljoin visited :
  closed_under_next store_name requests_get urljoin visited ->
  forall fuel condition_filter url page_count item_count w,
    visited url ->
    fst (crawl_loop store_name requests_get urljoin fuel condition_filter
           (Some url) page_count item_count w) = Ok None.
Proof.
  intros Hclosed. induction fuel as [|fuel IH];
    intros condition_filter url page_count item_count w Hv;
    destruct (Hclosed url Hv) as (Hne & soup & next_url & Hget & Hwf & Hnext & Hv').
  - rewrite crawl_loop_out_of_fuel; [reflexivity | now apply truthy_true].
  - rewrite crawl_loop_step by assumption.
    rewrite (process_page_fetched _ _ _ _ _ soup) by assumption.
    rewrite Hnext. now apply IH.
Qed.

(** X9.  The loop keeps no record of the pages it has seen: when the next-page
    links of the server lead back to a page already visited, the crawl
    never ends -- whatever the number of iterations, the loop is still
    running when they are used up. *)
Theorem crawl_never_ends_on_cycle store_name requests_get urljoin
    (visited : string -> Prop) :
  closed_under_next store_name requests_get urljoin visited ->
  visited (base_url store_name) ->
  forall fuel condition_filter w,
    fst (crawl store_name requests_get urljoin fuel condition_filter w) = Ok None.
Proof.
  intros Hclosed Hv fuel condition_filter w. rewrite crawl_eq.
  now apply (crawl_loop_endless _ _ _ visited).
Qed.

Lemma crawl_never_ends_on_cycle_witness :
  fst (crawl sample_store sample_get_loop sample_urljoin 50 None empty_world) = Ok None.
Proof.
  apply (crawl_never_ends_on_cycle sample_store sample_get_loop sample_urljoin
           (fun url => url = base_url sample_store)); [|reflexivity].
  intros url ->. split; [discriminate|].
  eexists _, _. split; [reflexivity|]. split; [|split; reflexivity].
  split; [|href_readable].
  repeat apply List.Forall_cons; try apply List.Forall_nil. href_readable.
Defined.

(** ** Crawling again *)






(** ** Text after the identifier *)

Lemma no_digit_ahead_app rest suffix :
  no_digit_ahead rest = true -> no_digit_ahead suffix = true ->
  no_digit_ahead (rest +:+ suffix) = true.
Proof. destruct rest; simpl; auto. Qed.

(** X11.  Adding text at the end of a URL that has an item identifier -- a
    query string, a fragment, anything that does not begin with a digit --
    does not change the identifier [extract_item_id] returns. *)
Theorem extract_item_id_suffix (url suffix item_id : string) :
  extract_item_id url = Some item_id ->
  no_digit_ahead suffix = true ->
  extract_item_id (url +:+ suffix) = Some item_id.
Proof.
  unfold extract_item_id. intros H Hs.
  apply search_itm_Some in H as (pre & rest & (-> & Hne & Hd & Hr) & Hpre).
  apply (search_itm_first _ pre item_id (rest +:+ suffix)); [|exact Hpre].
  split; [|split; [exact Hne | split; [exact Hd | now apply no_digit_ahead_app]]].
  now rewrite !append_assoc.
Qed.

Lemma extract_item_id_suffix_witness :
  extract_item_id ("https://www.ebay.com/itm/1002" +:+ "?_trkparms=5") = Some "1002".
Proof.
  apply extract_item_id_suffix; reflexivity.
Defined.

(** ** The content of the files *)

Lemma all_app f a b : Py.all f (a +:+ b) = (Py.all f a && Py.all f b)%bool.
Proof.
  induction a as [|c a IH]; simpl; [reflexivity|].
  now rewrite IH, andb_assoc.
Qed.

Lemma read_char_escape_char c rest :
  read_char (Json.escape_char c +:+ rest) = Some (c, rest).
Proof. destruct c as [[] [] [] [] [] [] [] []]; reflexivity. Qed.

Lemma escape_char_plain c : Py.all plain_ascii (Json.escape_char c) = true.
Proof. destruct c as [[] [] [] [] [] [] [] []]; reflexivity. Qed.

Lemma escape_plain s : Py.all plain_ascii (Json.escape s) = true.
Proof.
  induction s as [|c s IH]; [reflexivity|].
  simpl. now rewrite all_app, escape_char_plain, IH.
Qed.

Lemma str_plain s : Py.all plain_ascii (Json.str s) = true.
Proof.
  unfold Json.str. cbn [Py.all]. rewrite all_app, escape_plain. reflexivity.
Qed.

Lemma escape_closed_inj a b r1 r2 :
  Json.escape a +:+ String Json.quote r1 = Json.escape b +:+ String Json.quote r2 ->
  a = b /\ r1 = r2.
Proof.
  revert b. induction a as [|c a IH]; intros [|d b] H; cbn [Json.escape] in H.
  - simpl in H. injection H as ->. auto.
  - rewrite append_assoc in H. apply (f_equal read_char) in H.
    rewrite read_char_escape_char in H. discriminate.
  - rewrite append_assoc in H. apply (f_equal read_char) in H.
    rewrite read_char_escape_char in H. discriminate.
  - rewrite !append_assoc in H. apply (f_equal read_char) in H.
    rewrite !read_char_escape_char in H. injection H as -> H.
    destruct (IH _ H) as [-> ->]. auto.
Qed.

Lemma str_closed_inj a b r1 r2 :
  Json.str a +:+ r1 = Json.str b +:+ r2 -> a = b /\ r1 = r2.
Proof.
  unfold Json.str, Json.chr. simpl. intros [= H].
  rewrite !append_assoc in H. simpl in H. now apply escape_closed_inj.
Qed.

Lemma member_closed_inj key a b r1 r2 :
  Json.member key a +:+ r1 = Json.member key b +:+ r2 -> a = b /\ r1 = r2.
Proof.
  unfold Json.member. rewrite !append_assoc. intros H.
  apply (inj (String.app "    ")) in H.
  apply str_closed_inj in H as [_ H].
  apply (inj (String.app ": ")) in H.
  now apply str_closed_inj.
Qed.

(** X12.  On records whose fields are strings of the characters 0..255, the
    strings of this embedding, the content of a file determines the record:
    two such records with the same dump are the same record. *)
Theorem dumps_injective (d1 d2 : ItemData) :
  Json.dumps (to_dict d1) = Json.dumps (to_dict d2) -> d1 = d2.
Proof.
  destruct d1 as [t1 c1 p1 u1], d2 as [t2 c2 p2 u2].
  unfold Json.dumps, to_dict. cbn [Json.members title condition price product_url].
  intros H. apply (inj (String.app "{")), (inj (String.app (Json.chr Json.newline))) in H.
  rewrite !append_assoc in H.
  apply member_closed_inj in H as [-> H].
  apply (inj (String.app ",")), (inj (String.app (Json.chr Json.newline))) in H.
  apply member_closed_inj in H as [-> H].
  apply (inj (String.app ",")), (inj (String.app (Json.chr Json.newline))) in H.
  apply member_closed_inj in H as [-> H].
  apply (inj (String.app ",")), (inj (String.app (Json.chr Json.newline))) in H.
  apply member_closed_inj in H as [-> _].
  reflexivity.
Qed.

Lemma dumps_injective_witness :
  Json.dumps (to_dict (mkItemData "a" "New" "1.00" "u")) <>
  Json.dumps (to_dict (mkItemData "a" "New" "1.00, u" "")).
Proof.
  intros H. apply dumps_injective in H. discriminate H.
Defined.

(** X13.  The dump written to a file holds printable ASCII characters and line
    feeds only, whatever characters the fields of the record hold. *)
Theorem dumps_plain_ascii (d : ItemData) :
  Py.all plain_ascii (Json.dumps (to_dict d)) = true.
Proof.
  unfold Json.dumps, to_dict. cbn [Json.members]. unfold Json.member.
  rewrite !all_app, !str_plain. reflexivity.
Qed.

(** ** The filter of the command line *)

Lemma appears_iff_kept item condition_filter url item_id :
  valid_listing item url item_id ->
  appears item condition_filter
  <-> filtered_out condition_filter (condition_of item) = false.
Proof.
  intros ((e & Hl & Ha) & Hne & Hid). split.
  - intros [data Hd]. specialize (Hd empty_world).
    destruct (filtered_out condition_filter (condition_of item)) eqn:Hf;
      [|reflexivity].
    erewrite parse_item_filtered in Hd by eauto. discriminate.
  - intros Hf. eexists. intros w. erewrite parse_item_accepted by eauto.
    reflexivity.
Qed.

(** X14.  The command line cannot pass an empty filter: [--condition] is absent
    or one of its three choices.  So for every filter [main] hands to
    [crawl], the record of a valid listing is returned if and only if the
    filter is unset or the condition of the listing equals it, case
    apart. *)
Theorem main_filter_exact (args : Args) (item : Item) (url item_id : string) :
  valid_listing item url item_id ->
  main_filter args <> Some ""
  /\ (appears item (main_filter args)
      <-> (main_filter args = None
           \/ exists f, main_filter args = Some f /\ ci_eq (condition_of item) f)).
Proof.
  intros Hv.
  assert (main_filter args <> Some "") as Hne
    by (unfold main_filter; destruct (args_condition args) as [[]|]; discriminate).
  split; [exact Hne|].
  rewrite (appears_iff_kept _ _ _ _ Hv), filtered_out_false.
  unfold passes_filter. intuition.
Qed.

Lemma main_filter_exact_witness :
  ~ appears sample_used (main_filter (mkArgs "garlandcomputer" (Some New) "data" false)).
Proof.
  intros H.
  apply (proj2 (main_filter_exact (mkArgs "garlandcomputer" (Some New) "data" false)
                  sample_used "https://www.ebay.com/itm/1002" "1002"
                  ltac:(split; [eexists; split; reflexivity
                               | split; [discriminate | reflexivity]]))) in H.
  destruct H as [H | (f & [= <-] & H)]; discriminate.
Defined.

(** ** The record a crawl leaves for an item *)







(** ** C7: a finite chain with a link anchor without [href] *)

(** C7 (termination), where the code departs from it.  The server has one
    page, without next-page link: a finite pagination chain of one page.
    One listing node of that page has a link anchor without [href].  For
    every filter and from every state [crawl] does not end there with a
    page count of 1: [parse_item] raises [KeyError], [process_page] and
    [crawl] let it through, and the crawl ends with it after its one
    request, nothing written. *)
Theorem crawl_raises_on_finite_chain :
  sample_get_no_href (base_url sample_store) =
    Response (mkSoup [sample_new; sample_no_href; sample_used] None)
  /\ no_href sample_no_href
  /\ forall fuel condition_filter w,
       exists w',
         crawl sample_store sample_get_no_href sample_urljoin (S fuel)
           condition_filter w = (Raise (KeyError "href"), w')
         /\ files w' = files w
         /\ requested w' = requested w ++ [base_url sample_store].
Proof.
  split; [reflexivity|]. split; [eexists; split; reflexivity|].
  intros fuel condition_filter w.
  rewrite crawl_eq, crawl_loop_step by apply base_url_nonempty.
  destruct (process_page_no_href sample_store sample_get_no_href sample_urljoin
              (base_url sample_store) condition_filter
              (mkSoup [sample_new; sample_no_href; sample_used] None)
              (add_log [(INFO, ProcessingPageNumber (0 + 1))]
                 (add_log [(INFO, StartingCrawl condition_filter)] w)) eq_refl)
    as [events Hrun].
  { right. left. eexists. split; reflexivity. }
  rewrite Hrun. eexists. split; [reflexivity|]. split; reflexivity.
Qed.
